(** * MarkdownVectorDB: chunking, index build and retrieval (genai.py)

    A shallow embedding of [MarkdownVectorDB] of genai.py.  Python strings are
    lists of Unicode code points, Python ints are [Z], exceptions are values
    of [exn], and the methods of the class run in a state-and-exception monad
    over the fields of [self].  The external collaborators (NLTK's sentence
    tokenizer, the file system, the Gemini client and the FAISS flat index)
    are the fields of the class [Env]. *)

From Stdlib Require Import String Ascii ZArith NArith List Bool Lia Permutation.
Import ListNotations.
Local Open Scope Z_scope.

(* ===================================================================== *)
(** ** Python built-ins used by genai.py *)
(* ===================================================================== *)

Module Py.

(** A Python [str]: the sequence of its code points. *)
Definition char := N.
Definition str := list char.

(** A string literal of the source, as code points (ASCII only). *)
Definition lit (s : string) : str :=
  map N_of_ascii (list_ascii_of_string s).

Definition NL : char := 10%N.
Definition SP : char := 32%N.

(** [str.isspace] on one character, which is also what [\s] matches in a
    [str] pattern and what [strip] and [split] remove: CPython's
    [_PyUnicode_IsWhitespace]. *)
Definition isspace (c : char) : bool :=
  (((9 <=? c) && (c <=? 13)) || ((28 <=? c) && (c <=? 32))
   || (c =? 133) || (c =? 160) || (c =? 5760)
   || ((8192 <=? c) && (c <=? 8202))
   || (c =? 8232) || (c =? 8233) || (c =? 8239) || (c =? 8287)
   || (c =? 12288))%N.

(** [len(l)] *)
Definition len {A} (l : list A) : Z := Z.of_nat (length l).

(** [s.lstrip()], [s.rstrip()], [s.strip()] *)
Fixpoint lstrip (s : str) : str :=
  match s with
  | c :: t => if isspace c then lstrip t else s
  | [] => []
  end.

Definition rstrip (s : str) : str := rev (lstrip (rev s)).

Definition strip (s : str) : str := rstrip (lstrip s).

(** [s.split()]: the maximal runs of non-whitespace characters.  [w] is the
    word being read. *)
Fixpoint split_from (w : str) (s : str) : list str :=
  match s with
  | [] => match w with [] => [] | _ => [w] end
  | c :: t =>
      if isspace c
      then match w with [] => split_from [] t | _ => w :: split_from [] t end
      else split_from (w ++ [c]) t
  end.

Definition split (s : str) : list str := split_from [] s.

(** [sep.join(l)] *)
Fixpoint join (sep : str) (l : list str) : str :=
  match l with
  | [] => []
  | [w] => w
  | w :: ws => w ++ sep ++ join sep ws
  end.

(** [l[i:]], with Python's treatment of a negative or too large start. *)
Definition slice_from {A} (l : list A) (i : Z) : list A :=
  let start := if i <? 0 then Z.max (len l + i) 0 else Z.min i (len l) in
  skipn (Z.to_nat start) l.

(** [l[:n]] for [0 <= n], and the slice [l[-n:]] for [0 < n]. *)
Definition leading {A} (n : Z) (l : list A) : list A := firstn (Z.to_nat n) l.
Definition trailing {A} (n : Z) (l : list A) : list A := slice_from l (- n).

(** Exceptions, identified by the name of their class. *)
Record exn := Exn { exn_class : string }.

Definition IndexError : exn := Exn "IndexError".
Definition AttributeError : exn := Exn "AttributeError".
Definition AssertionError : exn := Exn "AssertionError".
Definition ValueError : exn := Exn "ValueError".

(** [l[i]]: a negative index counts from the end; out of range raises. *)
Definition getitem {A} (l : list A) (i : Z) : exn + A :=
  let j := if i <? 0 then i + len l else i in
  if (j <? 0) || (len l <=? j) then inl IndexError
  else match nth_error l (Z.to_nat j) with
       | Some x => inr x
       | None => inl IndexError
       end.

End Py.
Import Py.

(* ===================================================================== *)
(** ** [re.split(r"\n\s*\n", s)] *)
(* ===================================================================== *)

Module Re.

(** The rest of the pattern, [\s*\n], at the head of [s]: the greedy star
    first takes the next whitespace character and tries to go on; when
    that fails it gives the character back, and [\n] has to match it. *)
Fixpoint star_nl (s : str) : option str :=
  match s with
  | [] => None
  | c :: t =>
      if isspace c
      then match star_nl t with
           | Some r => Some r
           | None => if (c =? NL)%N then Some t else None
           end
      else None
  end.

(** A match of [\n\s*\n] at the head of [s]: what follows the match. *)
Definition match_sep (s : str) : option str :=
  match s with
  | c :: t => if (c =? NL)%N then star_nl t else None
  | [] => None
  end.

(** The scan of [re.split]: [cur] is the piece being read.  A match ends
    the piece and the scan goes on after it; otherwise one character
    joins the piece.  Each round consumes a character, so [length s]
    rounds and one more are always enough. *)
Fixpoint split_scan (fuel : nat) (cur s : str) : list str :=
  match fuel with
  | O => [cur ++ s]
  | S f =>
      match s with
      | [] => [cur]
      | c :: t =>
          match match_sep s with
          | Some rest => cur :: split_scan f [] rest
          | None => split_scan f (cur ++ [c]) t
          end
      end
  end.

Definition split (s : str) : list str := split_scan (S (length s)) [] s.

End Re.

(* ===================================================================== *)
(** ** External collaborators *)
(* ===================================================================== *)

Inductive task_type := RETRIEVAL_DOCUMENT | RETRIEVAL_QUERY.

(** What genai.py calls and does not define.  [scalar] is a float32;
    [sent_tokenize] is NLTK's; [read_text path] is
    [open(path, "r", encoding="utf-8").read()]; [Client api_key] is
    [genai.Client(api_key=api_key)], which gives the client or raises (a
    [ValueError] when it finds no key, neither in its argument nor in the
    variables of the process); [embed_content client task text] is
    [client.models.embed_content(...).embeddings[0].values], as the float32
    numbers that [np.array(...).astype("float32")] makes of the values at
    once, and [generate_content client prompt] is
    [client.models.generate_content(...).text], either of which may raise;
    [flat_search xb x k] is the k-nearest-neighbour search of FAISS's
    [IndexFlatL2] over the stored rows [xb], giving the rows [D[0]] and
    [I[0]] of its two result arrays. *)
Class Env := {
  scalar : Type;
  sent_tokenize : str -> list str;
  read_text : str -> exn + str;
  Client : str -> exn + str;
  embed_content : str -> task_type -> str -> exn + list scalar;
  generate_content : str -> str -> exn + str;
  flat_search : list (list scalar) -> list scalar -> Z -> list scalar * list Z
}.

(** The result of FAISS's flat search on [n] stored rows, as FAISS documents
    it: [k] distances and [k] labels; the first [min k n] labels are stored
    rows, each at most once, and the missing ones are the label [-1]. *)
Class FlatSearchContract (E : Env) : Prop := {
  search_distances : forall xb x k, 0 < k ->
    len (fst (flat_search xb x k)) = k;
  search_labels : forall xb x k, 0 < k ->
    len (snd (flat_search xb x k)) = k;
  search_found : forall xb x k, 0 < k ->
    let found := leading (Z.min k (len xb)) (snd (flat_search xb x k)) in
    NoDup found /\ forall i, In i found -> 0 <= i < len xb;
  search_padding : forall xb x k, 0 < k ->
    slice_from (snd (flat_search xb x k)) (Z.min k (len xb))
    = repeat (-1) (Z.to_nat (k - Z.min k (len xb)))
}.

(** What the chunker needs of the sentence tokenizer: no sentence in the
    empty string, and a paragraph with a word has a sentence with a word. *)
Class TokenizerContract (E : Env) : Prop := {
  tokenize_empty : sent_tokenize [] = [];
  tokenize_word : forall para, Py.split para <> [] ->
    exists sent, In sent (sent_tokenize para) /\ Py.split sent <> []
}.

(* ===================================================================== *)
(** ** The exception monad and the monad of methods *)
(* ===================================================================== *)

Definition raise {A} (e : exn) : exn + A := inl e.

Definition bindE {A B} (c : exn + A) (k : A -> exn + B) : exn + B :=
  match c with
  | inl e => inl e
  | inr a => k a
  end.

(** A list comprehension whose element expression may raise. *)
Fixpoint comprehension {A B} (f : A -> exn + B) (l : list A) : exn + list B :=
  match l with
  | [] => inr []
  | a :: t => bindE (f a) (fun b => bindE (comprehension f t) (fun bs => inr (b :: bs)))
  end.

(** A method: from the fields of [self] to an outcome and the fields after.
    The assignments made before an exception is raised stay. *)
Definition M (S A : Type) : Type := S -> (exn + A) * S.

Definition ret {S A} (a : A) : M S A := fun self => (inr a, self).

Definition bind {S A B} (c : M S A) (k : A -> M S B) : M S B :=
  fun self =>
    match c self with
    | (inl e, self') => (inl e, self')
    | (inr a, self') => k a self'
    end.

Definition read {S A} (f : S -> A) : M S A := fun self => (inr (f self), self).

Definition assign {S} (f : S -> S) : M S unit := fun self => (inr tt, f self).

Definition call {S A} (c : exn + A) : M S A := fun self => (c, self).

Declare Scope method_scope.
Delimit Scope method_scope with method.
Notation "x <- c ;; k" := (bind c (fun x => k))
  (at level 61, c at next level, right associativity) : method_scope.
Notation "c ;; k" := (bind c (fun _ => k))
  (at level 61, right associativity) : method_scope.

(* ===================================================================== *)
(** ** class MarkdownVectorDB *)
(* ===================================================================== *)

(** The locals of the loop of [_chunk_text]. *)
Module Loop.
Record t := mk {
  chunks : list str;
  current_chunk : list str;
  current_length : Z
}.
End Loop.

Section MarkdownVectorDB.

Context {E : Env}.

(** [faiss.IndexFlatL2]: its dimension and its stored rows. *)
Record IndexFlatL2 := { d : Z; xb : list (list scalar) }.

(** A numpy array of at most two dimensions, by rows. *)
Record ndarray := { shape : list Z; rows : list (list scalar) }.

(** [np.array(l).astype("float32")] for a list of lists of floats: the
    empty list gives shape [(0,)], rows of one length give [(n, d)], and
    ragged rows are refused. *)
Definition np_array (l : list (list scalar)) : exn + ndarray :=
  match l with
  | [] => inr {| shape := [0]; rows := [] |}
  | r :: rs =>
      if forallb (fun r' => len r' =? len r) rs
      then inr {| shape := [len l; len r]; rows := l |}
      else raise ValueError
  end.

(** [index.add(x)] and [index.search(x, k)] of the Python wrapper, which
    asserts the dimension (and [k > 0]) before it calls the library. *)
Definition IndexFlatL2_add (idx : IndexFlatL2) (x : ndarray) : exn + IndexFlatL2 :=
  bindE (getitem (shape x) 1) (fun dx =>
    if dx =? d idx then inr {| d := d idx; xb := xb idx ++ rows x |}
    else raise AssertionError).

Definition IndexFlatL2_search (idx : IndexFlatL2) (x : list scalar) (k : Z)
  : exn + (list scalar * list Z) :=
  if negb (len x =? d idx) then raise AssertionError
  else if negb (0 <? k) then raise AssertionError
  else inr (flat_search (xb idx) x k).

(** The fields of [self]. *)
Record MarkdownVectorDB := {
  client : str;
  markdown_path : str;
  chunk_size : Z;
  overlap : Z;
  chunks : list str;
  index : option IndexFlatL2
}.

Definition set_chunks (v : list str) (self : MarkdownVectorDB) : MarkdownVectorDB :=
  {| client := client self; markdown_path := markdown_path self;
     chunk_size := chunk_size self; overlap := overlap self;
     chunks := v; index := index self |}.

Definition set_index (v : option IndexFlatL2) (self : MarkdownVectorDB) : MarkdownVectorDB :=
  {| client := client self; markdown_path := markdown_path self;
     chunk_size := chunk_size self; overlap := overlap self;
     chunks := chunks self; index := v |}.

(** *** _chunk_text *)

(** [current_chunk[-self.overlap:] if self.overlap > 0 else []] *)
Definition overlap_words (self : MarkdownVectorDB) (current_chunk : list str) : list str :=
  if 0 <? overlap self then slice_from current_chunk (- overlap self) else [].

(** The body of [for sent in sentences]. *)
Definition chunk_sentence (self : MarkdownVectorDB) (st : Loop.t) (sent : str) : Loop.t :=
  let words := Py.split sent in
  let sent_len := len words in
  if chunk_size self <? Loop.current_length st + sent_len then
    let current_chunk := overlap_words self (Loop.current_chunk st) ++ words in
    Loop.mk (Loop.chunks st ++ [join [SP] (Loop.current_chunk st)])
            current_chunk
            (len current_chunk)
  else
    Loop.mk (Loop.chunks st)
            (Loop.current_chunk st ++ words)
            (Loop.current_length st + sent_len).

(** The body of [for para in paragraphs]. *)
Definition chunk_paragraph (self : MarkdownVectorDB) (st : Loop.t) (para : str) : Loop.t :=
  fold_left (chunk_sentence self) (sent_tokenize para) st.

Definition chunk_loop (self : MarkdownVectorDB) (text : str) : Loop.t :=
  let paragraphs := Re.split (strip text) in
  fold_left (chunk_paragraph self) paragraphs (Loop.mk [] [] 0).

Definition _chunk_text (self : MarkdownVectorDB) (text : str) : list str :=
  let st := chunk_loop self text in
  match Loop.current_chunk st with
  | [] => Loop.chunks st
  | _ => Loop.chunks st ++ [join [SP] (Loop.current_chunk st)]
  end.

(** *** _load_markdown *)

Definition _load_markdown : M MarkdownVectorDB unit :=
  (path <- read markdown_path ;;
   contents <- call (read_text path) ;;
   self <- read id ;;
   assign (set_chunks (_chunk_text self contents)))%method.

(** *** _create_index *)

Definition _create_index : M MarkdownVectorDB unit :=
  (self <- read id ;;
   embeddings <- call (comprehension
                         (embed_content (client self) RETRIEVAL_DOCUMENT)
                         (chunks self)) ;;
   embeddings <- call (np_array embeddings) ;;
   dim <- call (getitem (shape embeddings) 1) ;;
   assign (set_index (Some {| d := dim; xb := [] |})) ;;
   idx <- call (IndexFlatL2_add {| d := dim; xb := [] |} embeddings) ;;
   assign (set_index (Some idx)))%method.

(** *** __init__ and the constructor call *)

(** [self] after the six assignments that open [__init__], the client
    being the one that [genai.Client] gave. *)
Definition fresh (client markdown_path : str) (chunk_size overlap : Z)
  : MarkdownVectorDB :=
  {| client := client; markdown_path := markdown_path;
     chunk_size := chunk_size; overlap := overlap;
     chunks := []; index := None |}.

Definition __init__ (api_key markdown_path : str) (chunk_size overlap : Z)
  : M MarkdownVectorDB unit :=
  (client <- call (Client api_key) ;;
   assign (fun _ => fresh client markdown_path chunk_size overlap) ;;
   _load_markdown ;;
   _create_index)%method.

(** [MarkdownVectorDB(api_key, markdown_path, chunk_size, overlap)]: the
    caller gets the object when [__init__] returns, and only the exception
    when it raises. *)
Definition new (api_key markdown_path : str) (chunk_size overlap : Z)
  : exn + MarkdownVectorDB :=
  let blank := {| client := []; markdown_path := []; chunk_size := 0;
                  overlap := 0; chunks := []; index := None |} in
  match __init__ api_key markdown_path chunk_size overlap blank with
  | (inr _, self) => inr self
  | (inl e, _) => inl e
  end.

(** *** query *)

(** The f-string of [query]. *)
Definition prompt_of (context question : str) : str :=
  [NL]
  ++ lit "        You are an assistant that answers questions about a real estate project." ++ [NL]
  ++ lit "        Rely **only** on the information provided in the brochure context below." ++ [NL]
  ++ lit "        If the answer is not explicitly stated in the context, reply: "
  ++ [34%N] ++ lit "The brochure does not provide this information." ++ [34%N] ++ [NL]
  ++ [NL]
  ++ lit "        Brochure Context:" ++ [NL]
  ++ lit "        " ++ context ++ [NL]
  ++ [NL]
  ++ lit "        Question:" ++ [NL]
  ++ lit "        " ++ question ++ [NL]
  ++ [NL]
  ++ lit "        Answer:" ++ [NL]
  ++ lit "        ".

(** [[self.chunks[idx] for idx in I[0]]] joined by newlines. *)
Definition context_of (chunks : list str) (I0 : list Z) : exn + str :=
  bindE (comprehension (getitem chunks) I0) (fun l => inr (join [NL] l)).

(** [self.index.search(qvec, k=top_k)]; [self.index] may still be [None]. *)
Definition index_search (self : MarkdownVectorDB) (qvec : list scalar) (top_k : Z)
  : exn + (list scalar * list Z) :=
  match index self with
  | None => raise AttributeError
  | Some idx => IndexFlatL2_search idx qvec top_k
  end.

Definition query (question : str) (top_k : Z) : M MarkdownVectorDB str :=
  (self <- read id ;;
   qvec <- call (embed_content (client self) RETRIEVAL_QUERY question) ;;
   DI <- call (index_search self qvec top_k) ;;
   context <- call (context_of (chunks self) (snd DI)) ;;
   let prompt := prompt_of context question in
   resp <- call (generate_content (client self) prompt) ;;
   ret resp)%method.

End MarkdownVectorDB.

Arguments MarkdownVectorDB {E}.
Arguments IndexFlatL2 {E}.
Arguments ndarray {E}.

(* ===================================================================== *)
(** ** A reference environment *)
(* ===================================================================== *)

(** An environment to run the model in: floats that are small integers (on
    which float32 arithmetic is exact), a tokenizer that takes a paragraph
    for one sentence (what NLTK does when the paragraph has no punctuation
    that ends a sentence), files given as a list of paths and contents, and
    an exact brute-force nearest-neighbour search. *)
Module Ref.

Definition sq_dist (x y : list Z) : Z :=
  fold_left Z.add (map (fun p => (fst p - snd p) * (fst p - snd p)) (combine x y)) 0.

(** Insertion after the entries that are not farther: stable. *)
Fixpoint insert (p : Z * Z) (l : list (Z * Z)) : list (Z * Z) :=
  match l with
  | [] => [p]
  | q :: t => if fst p <? fst q then p :: l else q :: insert p t
  end.

Definition labels_of (xb : list (list Z)) : list Z :=
  map Z.of_nat (seq 0 (length xb)).

Definition ranked (xb : list (list Z)) (x : list Z) : list (Z * Z) :=
  fold_left (fun acc p => insert p acc)
            (combine (map (sq_dist x) xb) (labels_of xb)) [].

Definition FLT_MAX : Z := 340282346638528859811704183484516925440.

Definition flat_search (xb : list (list Z)) (x : list Z) (k : Z)
  : list Z * list Z :=
  let best := firstn (Z.to_nat k) (ranked xb x) in
  let missing := (Z.to_nat k - length best)%nat in
  (map fst best ++ repeat FLT_MAX missing, map snd best ++ repeat (-1) missing).

Definition sent_tokenize (para : str) : list str :=
  match para with
  | [] => []
  | _ => [para]
  end.

Fixpoint read_text (files : list (str * str)) (path : str) : exn + str :=
  match files with
  | [] => inl (Exn "FileNotFoundError")
  | (p, contents) :: t =>
      if list_eq_dec N.eq_dec p path then inr contents else read_text t path
  end.

Definition embed_content (_ : str) (_ : task_type) (text : str) : exn + list Z :=
  inr [len text; len (Py.split text)].

Definition generate_content (_ : str) (prompt : str) : exn + str :=
  inr prompt.

(** [genai.Client] when the variables of the process hold no key: the
    client of the key, and a [ValueError] for the empty key. *)
Definition Client (api_key : str) : exn + str :=
  match api_key with
  | [] => inl ValueError
  | _ => inr api_key
  end.

Definition env (files : list (str * str)) : Env :=
  Build_Env Z sent_tokenize (read_text files) Client embed_content
            generate_content flat_search.

(** Example documents: two paragraphs without punctuation. *)
Definition doc_a_bcd : str := lit "a" ++ [NL; NL] ++ lit "b c d".
Definition doc_ab_cd : str := lit "a b" ++ [NL; NL] ++ lit "c d".

Definition demo : Env :=
  env [(lit "a_bcd.md", doc_a_bcd); (lit "ab_cd.md", doc_ab_cd);
       (lit "empty.md", [])].

(** The session built from [a_bcd.md] with [chunk_size = 3], [overlap = 2]. *)
Definition demo_db : @MarkdownVectorDB demo :=
  {| client := lit "key"; markdown_path := lit "a_bcd.md";
     chunk_size := 3; overlap := 2;
     chunks := [lit "a"; lit "a b c d"];
     index := Some (@Build_IndexFlatL2 demo 2 ([[1; 1]; [7; 4]] : list (list Z))) |}.

(** [self] for [ab_cd.md] with [chunk_size = 3], [overlap = 1], and for
    [a_bcd.md] with [chunk_size = 1], [overlap = 0]. *)
Definition self_ab_cd : @MarkdownVectorDB demo :=
  fresh (lit "key") (lit "ab_cd.md") 3 1.
Definition self_small : @MarkdownVectorDB demo :=
  fresh (lit "key") (lit "a_bcd.md") 1 0.

End Ref.

(* ===================================================================== *)
(** ** The word lists behind the chunks *)
(* ===================================================================== *)

(** The loop of [_chunk_text] once more, keeping for every chunk the word
    list that was joined into it. *)
Module Words.
Record t := mk {
  closed : list (list str);
  current_chunk : list str;
  current_length : Z
}.

(** The locals of the source's loop that this state stands for. *)
Definition erase (w : t) : Loop.t :=
  Loop.mk (map (join [SP]) (closed w)) (current_chunk w) (current_length w).
End Words.

Section WordLists.

Context {E : Env}.

Definition words_sentence (self : MarkdownVectorDB) (w : Words.t) (sent : str) : Words.t :=
  let words := Py.split sent in
  let sent_len := len words in
  if chunk_size self <? Words.current_length w + sent_len then
    let current_chunk := overlap_words self (Words.current_chunk w) ++ words in
    Words.mk (Words.closed w ++ [Words.current_chunk w])
             current_chunk
             (len current_chunk)
  else
    Words.mk (Words.closed w)
             (Words.current_chunk w ++ words)
             (Words.current_length w + sent_len).

(** The sentences of the document, in the order the loop meets them. *)
Definition sentences_of (text : str) : list str :=
  concat (map sent_tokenize (Re.split (strip text))).

Definition words_loop (self : MarkdownVectorDB) (text : str) : Words.t :=
  fold_left (words_sentence self) (sentences_of text) (Words.mk [] [] 0).

Definition chunk_word_lists (self : MarkdownVectorDB) (text : str) : list (list str) :=
  let w := words_loop self text in
  match Words.current_chunk w with
  | [] => Words.closed w
  | _ => Words.closed w ++ [Words.current_chunk w]
  end.

(** The seed of a new chunk as the specification words it: the last
    [overlap] words of the closed chunk, or nothing when [overlap] is 0 or
    the closed chunk has fewer than [overlap] words. *)
Definition spec_seed (overlap : Z) (closed_chunk : list str) : list str :=
  if (overlap =? 0) || (len closed_chunk <? overlap) then []
  else trailing overlap closed_chunk.

(** The chunk [b] begins with the overlap words taken from [a]. *)
Definition seeded (self : MarkdownVectorDB) (a b : list str) : Prop :=
  exists rest, b = overlap_words self a ++ rest.

End WordLists.

(** The running count is the length of the accumulator. *)
Definition counted (w : Words.t) : Prop :=
  Words.current_length w = len (Words.current_chunk w).

(** Something has been accumulated or closed. *)
Definition started (w : Words.t) : Prop :=
  Words.closed w <> [] \/ Words.current_chunk w <> [].

(** The chunk at a label that is in range. *)
Definition chunk_at (chunks : list str) (i : Z) : str := nth (Z.to_nat i) chunks [].

(** The labels of [n] stored rows. *)
Definition labels (n : Z) : list Z := map Z.of_nat (seq 0 (Z.to_nat n)).

(** [l] occurs in [c] as a run of consecutive elements. *)
Definition infix {A} (l c : list A) : Prop :=
  exists before after, c = before ++ l ++ after.

(** [R] holds between every element of the list and the next one. *)
Fixpoint chain {A} (R : A -> A -> Prop) (l : list A) : Prop :=
  match l with
  | a :: (b :: _) as t => R a b /\ chain R t
  | _ => True
  end.

(** The word list [l] is whole in a closed chunk or in the accumulator. *)
Definition held (w : Words.t) (l : list str) : Prop :=
  exists c, In c (Words.closed w ++ [Words.current_chunk w]) /\ infix l c.

(** White space only; the empty string is blank. *)
Definition blank (s : str) : bool := forallb isspace s.

(* ===================================================================== *)
(** ** Words, and chunks without their overlap *)
(* ===================================================================== *)

Definition nonspace (c : char) : bool := negb (isspace c).

(** A word: at least one character, none of them white space. *)
Definition is_word (w : str) : Prop := w <> [] /\ forallb nonspace w = true.

Section Unseed.

Context {E : Env}.

(** The word lists [cs] one after the other, each without the overlap words
    it took from the word list before it; [prev] is before the first. *)
Fixpoint unseed (self : MarkdownVectorDB) (prev : list str) (cs : list (list str))
  : list str :=
  match cs with
  | [] => []
  | c :: t => skipn (length (overlap_words self prev)) c ++ unseed self c t
  end.

(** The words of the sentences, in order. *)
Definition sentence_words (sents : list str) : list str :=
  concat (map Py.split sents).

(** What has been read so far is in the word lists, and the accumulator
    begins with the overlap words of the last closed chunk. *)
Definition conserved (self : MarkdownVectorDB) (w : Words.t) (done : list str) : Prop :=
  unseed self [] (Words.closed w ++ [Words.current_chunk w]) = sentence_words done
  /\ exists rest,
       Words.current_chunk w = overlap_words self (last (Words.closed w) []) ++ rest.

End Unseed.

(** Every word list of the loop has at most [bound] words. *)
Definition bounded (bound : Z) (w : Words.t) : Prop :=
  counted w
  /\ Forall (fun c => len c <= bound) (Words.closed w ++ [Words.current_chunk w]).

(** The accumulator and the closed chunks have words. *)
Definition filled (w : Words.t) : Prop :=
  Words.current_chunk w <> [] /\ Forall (fun c => c <> []) (Words.closed w).

(* ===================================================================== *)
(** ** An environment whose embedding service fails *)
(* ===================================================================== *)

(** The reference environment with an embedding service that refuses a
    text of more than one word. *)
Module Flaky.

Definition embed_content (_ : str) (_ : task_type) (text : str) : exn + list Z :=
  if 1 <? len (Py.split text) then inl (Exn "ServerError") else inr [len text].

Definition env (files : list (str * str)) : Env :=
  Build_Env Z Ref.sent_tokenize (Ref.read_text files) Ref.Client embed_content
            Ref.generate_content Ref.flat_search.

Definition demo : Env :=
  env [(lit "a_bcd.md", Ref.doc_a_bcd); (lit "a.md", lit "a")].

(** The session built from [a.md] with the default sizes. *)
Definition demo_db : @MarkdownVectorDB demo :=
  {| client := lit "key"; markdown_path := lit "a.md";
     chunk_size := 800; overlap := 100;
     chunks := [lit "a"];
     index := Some (@Build_IndexFlatL2 demo 1 ([[1]] : list (list Z))) |}.

End Flaky.

(* ===================================================================== *)
(** ** ui.py: the handlers that build and use the session *)
(* ===================================================================== *)

(** What the handlers of ui.py take from their host: whether an exception
    is an instance of the class of a name ([except AttributeError],
    [except Exception]), its message [str(e)], [os.path.exists],
    [os.path.getsize], [os.getenv] and the literal that is the default of
    [os.getenv('GEMINI_API_KEY', ...)].  What the handlers print is left
    out. *)
Class Host := {
  isinstance : exn -> string -> bool;
  str_of_exn : exn -> str;
  path_exists : str -> bool;
  getsize : str -> exn + Z;
  getenv : str -> option str;
  default_api_key : str
}.

Module UI.

(** An entry of the chat history: [(role, content)]. *)
Definition turn : Type := str * str.

Definition CROSS : char := 10060%N.
Definition WARNING : str := [9888%N; 65039%N].
Definition CHECK : char := 9989%N.

Definition user (content : str) : turn := (lit "user", content).
Definition assistant (content : str) : turn := (lit "assistant", content).

Definition PLEASE_TYPE : str := lit "Please type a question.".
Definition PLEASE_UPLOAD : str :=
  [CROSS] ++ lit " Please upload and process a brochure first.".
Definition NOT_AVAILABLE : str :=
  [CROSS] ++ lit " Q&A system is not available. Please try re-uploading the brochure or check your API key.".
Definition NO_ANSWER : str := lit "I couldn't find an answer to your question.".
Definition ISSUE : str :=
  [CROSS] ++ lit " There's an issue with the Q&A system. Please try re-uploading the brochure.".
Definition SORRY (message : str) : str :=
  [CROSS] ++ lit " Sorry, I encountered an error: " ++ message.

Definition QA_INSUFFICIENT : str := WARNING ++ lit " Q&A Unavailable (Insufficient content)".
Definition QA_NO_KEY : str := WARNING ++ lit " Q&A Unavailable (No API key)".
Definition QA_TOO_SHORT : str := WARNING ++ lit " Q&A Unavailable (Content too short)".
Definition QA_READY : str := [CHECK] ++ lit " Q&A Ready".
Definition QA_ERROR (message : str) : str := [CROSS] ++ lit " Q&A Error: " ++ message.
Definition QA_NO_FILE : str := [CROSS] ++ lit " Q&A Unavailable (No markdown file)".

Definition TEST_QUESTION : str := lit "What is this document about?".

(** [not s] for a string. *)
Definition falsy (s : str) : bool :=
  match s with
  | [] => true
  | _ => false
  end.

Definition str_eqb (a b : str) : bool :=
  if list_eq_dec N.eq_dec a b then true else false.

Section Handlers.

Context {E : Env} {host : Host}.

(** [ask_question_handler(history, question, extraction_data)], with the
    global [genai_db] as an argument and, beside the outcome, as it is
    afterwards.  Only [extraction_data is None] is looked at, so the data
    are of any type. *)
Definition ask_question_handler {data : Type}
    (genai_db : option MarkdownVectorDB)
    (history : option (list turn)) (question : str) (extraction_data : option data)
  : (exn + list turn) * option MarkdownVectorDB :=
  let history := match history with None => [] | Some h => h end in
  if falsy question || falsy (strip question) then
    (inr (history ++ [user []; assistant PLEASE_TYPE]), genai_db)
  else
    let question := strip question in
    match extraction_data with
    | None => (inr (history ++ [user question; assistant PLEASE_UPLOAD]), genai_db)
    | Some _ =>
        match genai_db with
        | None => (inr (history ++ [user question; assistant NOT_AVAILABLE]), genai_db)
        | Some db =>
            match query question 3 db with
            | (inr answer, db') =>
                let answer_str := if falsy answer then NO_ANSWER else answer in
                (inr (history ++ [user question; assistant answer_str]), Some db')
            | (inl e, db') =>
                if isinstance e "AttributeError" then
                  (inr (history ++ [user question; assistant ISSUE]), Some db')
                else if isinstance e "Exception" then
                  (inr (history ++ [user question; assistant (SORRY (str_of_exn e))]),
                   Some db')
                else (inl e, Some db')
            end
        end
    end.

(** The handler [except Exception as e] of the block below: the session is
    dropped and the status tells the error; what is no [Exception] goes on,
    with the global as it is. *)
Definition qa_except (e : exn) (genai_db : option MarkdownVectorDB)
  : (exn + str) * option MarkdownVectorDB :=
  if isinstance e "Exception" then (inr (QA_ERROR (str_of_exn e)), None)
  else (inl e, genai_db).

(** The block of [process_brochure_handler] that sets the global
    [genai_db] and [qa_status] (from [genai_db = None  # Reset first] to the
    [else] of the file test), for [md_file = result.get('response_path')]:
    the status, or the exception that leaves the block, and the global
    afterwards. *)
Definition process_brochure_qa (md_file : option str)
  : (exn + str) * option MarkdownVectorDB :=
  match md_file with
  | None => (inr QA_NO_FILE, None)
  | Some path =>
      if negb (falsy path) && path_exists path then
        match getsize path with
        | inl e => qa_except e None
        | inr file_size =>
            if file_size <? 50 then (inr QA_INSUFFICIENT, None)
            else
              let api_key :=
                match getenv (lit "GEMINI_API_KEY") with
                | Some v => v
                | None => default_api_key
                end in
              if falsy api_key || str_eqb api_key (lit "DUMMY_KEY")
              then (inr QA_NO_KEY, None)
              else
                match read_text path with
                | inl e => qa_except e None
                | inr contents =>
                    let md_content := strip contents in
                    if len md_content <? 100 then (inr QA_TOO_SHORT, None)
                    else
                      match new api_key path 800 100 with
                      | inl e => qa_except e None
                      | inr db =>
                          match query TEST_QUESTION 3 db with
                          | (inr _, db') => (inr QA_READY, Some db')
                          | (inl e, db') => qa_except e (Some db')
                          end
                      end
                end
        end
      else (inr QA_NO_FILE, None)
  end.

End Handlers.

(** A host to run the handlers in: [KeyboardInterrupt] is the one exception
    that is no [Exception], files exist when the reference file system has
    them and are as many bytes as characters, and no variable is set. *)
Definition demo_host (files : list (str * str)) : Host :=
  {| isinstance := fun e c =>
       String.eqb (exn_class e) c
       || (String.eqb c "Exception"
           && negb (String.eqb (exn_class e) "KeyboardInterrupt"));
     str_of_exn := fun e => lit (exn_class e);
     path_exists := fun p =>
       match Ref.read_text files p with inr _ => true | inl _ => false end;
     getsize := fun p =>
       match Ref.read_text files p with
       | inr contents => inr (len contents)
       | inl e => inl e
       end;
     getenv := fun _ => None;
     default_api_key := lit "key" |}.

(** Files to run the handlers on: a document of one long word, and a
    short one; the reference environment and the failing one over them. *)
Definition long_word : str := repeat 97%N 120.
Definition files : list (str * str) :=
  [(lit "long.md", long_word); (lit "short.md", lit "a b c")].
Definition env : Env := Ref.env files.
Definition flaky : Env := Flaky.env files.

End UI.

(* ===================================================================== *)
(** ** Facts about the built-ins *)
(* ===================================================================== *)

Lemma len_nonneg {A} (l : list A) : 0 <= len l.
Proof. unfold len. lia. Qed.

Lemma len_app {A} (l1 l2 : list A) : len (l1 ++ l2) = len l1 + len l2.
Proof. unfold len. rewrite length_app. lia. Qed.

Lemma len_nil_iff {A} (l : list A) : len l = 0 <-> l = [].
Proof.
  unfold len. destruct l as [|a l]; simpl; split; intro H0;
    try reflexivity; try discriminate; lia.
Qed.

Lemma split_from_nil (s w : str) :
  split_from w s = [] <-> w = [] /\ blank s = true.
Proof.
  revert w. induction s as [|c t IH]; intro w; simpl.
  - destruct w; split; intros H0; try tauto; try discriminate.
    destruct H0 as [H0 _]. discriminate.
  - destruct (isspace c) eqn:Hc; simpl.
    + destruct w as [|a w].
      * apply IH.
      * split; intros H0; [discriminate | destruct H0 as [H0 _]; discriminate].
    + rewrite IH. split; intros [H0 H1]; try discriminate.
      destruct w; discriminate.
Qed.

Lemma split_nil_iff (s : str) : Py.split s = [] <-> blank s = true.
Proof. unfold Py.split. rewrite split_from_nil. tauto. Qed.

Lemma blank_app (s1 s2 : str) : blank (s1 ++ s2) = blank s1 && blank s2.
Proof. apply forallb_app. Qed.

Lemma blank_rev (s : str) : blank (rev s) = blank s.
Proof.
  induction s as [|c t IH]; simpl; [reflexivity|].
  rewrite blank_app, IH. simpl. rewrite andb_true_r. apply andb_comm.
Qed.

Lemma lstrip_blank (s : str) : blank s = true -> lstrip s = [].
Proof.
  induction s as [|c t IH]; simpl; [reflexivity|].
  intro H0. apply andb_prop in H0. destruct H0 as [Hc Ht].
  rewrite Hc. auto.
Qed.

Lemma blank_lstrip (s : str) : blank (lstrip s) = blank s.
Proof.
  induction s as [|c t IH]; simpl; [reflexivity|].
  destruct (isspace c) eqn:Hc; simpl; [exact IH | now rewrite Hc].
Qed.

Lemma strip_blank (s : str) : blank s = true -> strip s = [].
Proof.
  intro H0. unfold strip, rstrip. now rewrite (lstrip_blank s H0).
Qed.

Lemma blank_strip (s : str) : blank (strip s) = blank s.
Proof.
  unfold strip, rstrip. now rewrite blank_rev, blank_lstrip, blank_rev, blank_lstrip.
Qed.

Lemma isspace_NL (c : char) : (c =? NL)%N = true -> isspace c = true.
Proof. intro H0. apply N.eqb_eq in H0. subst c. reflexivity. Qed.

(** A separator is white space. *)
Lemma star_nl_blank (s r : str) :
  Re.star_nl s = Some r -> exists sep, s = sep ++ r /\ blank sep = true.
Proof.
  revert r. induction s as [|c t IH]; intros r; simpl; [discriminate|].
  destruct (isspace c) eqn:Hc; [|discriminate].
  destruct (Re.star_nl t) as [r'|] eqn:Ht.
  - intro H0. injection H0 as <-. destruct (IH r' eq_refl) as (sep & -> & Hs).
    exists (c :: sep). simpl. now rewrite Hc, Hs.
  - destruct (c =? NL)%N; [|discriminate]. intro H0. injection H0 as <-.
    exists [c]. simpl. now rewrite Hc.
Qed.

Lemma match_sep_blank (s r : str) :
  Re.match_sep s = Some r ->
  exists sep, s = sep ++ r /\ blank sep = true /\ (length r < length s)%nat.
Proof.
  destruct s as [|c t]; simpl; [discriminate|].
  destruct (c =? NL)%N eqn:Hc; [|discriminate].
  intro H0. destruct (star_nl_blank _ _ H0) as (sep & -> & Hs).
  exists (c :: sep). simpl. rewrite (isspace_NL c Hc), Hs, length_app.
  repeat split. lia.
Qed.

(** With enough fuel the scan does not depend on the fuel. *)
Lemma split_scan_fuel (f1 f2 : nat) (cur s : str) :
  (length s < f1)%nat -> (length s < f2)%nat ->
  Re.split_scan f1 cur s = Re.split_scan f2 cur s.
Proof.
  revert f2 cur s. induction f1 as [|f1 IH]; intros f2 cur s H1 H2; [lia|].
  destruct f2 as [|f2]; [lia|].
  destruct s as [|c t]; [reflexivity|].
  change (Re.split_scan (S f1) cur (c :: t))
    with (match Re.match_sep (c :: t) with
          | Some rest => cur :: Re.split_scan f1 [] rest
          | None => Re.split_scan f1 (cur ++ [c]) t
          end).
  change (Re.split_scan (S f2) cur (c :: t))
    with (match Re.match_sep (c :: t) with
          | Some rest => cur :: Re.split_scan f2 [] rest
          | None => Re.split_scan f2 (cur ++ [c]) t
          end).
  destruct (Re.match_sep (c :: t)) as [rest|] eqn:Hm.
  - destruct (match_sep_blank _ _ Hm) as (_ & _ & _ & Hl).
    f_equal. apply IH; simpl in *; lia.
  - apply IH; simpl in *; lia.
Qed.

(** No word is lost by the split into paragraphs. *)
Lemma split_scan_word (fuel : nat) (cur s : str) :
  blank (cur ++ s) = false ->
  exists para, In para (Re.split_scan fuel cur s) /\ blank para = false.
Proof.
  revert cur s. induction fuel as [|f IH]; intros cur s Hb.
  - exists (cur ++ s). simpl. auto.
  - destruct s as [|c t].
    + exists cur. rewrite app_nil_r in Hb. simpl. auto.
    + change (Re.split_scan (S f) cur (c :: t))
        with (match Re.match_sep (c :: t) with
              | Some rest => cur :: Re.split_scan f [] rest
              | None => Re.split_scan f (cur ++ [c]) t
              end).
      destruct (Re.match_sep (c :: t)) as [rest|] eqn:Hm.
      * destruct (match_sep_blank _ _ Hm) as (sep & Hs & Hsep & _).
        destruct (blank cur) eqn:Hcur.
        -- rewrite Hs, !blank_app, Hcur, Hsep in Hb. simpl in Hb.
           destruct (IH [] rest Hb) as (para & Hin & Hp).
           exists para. split; [now right | exact Hp].
        -- exists cur. split; [now left | exact Hcur].
      * apply IH. now rewrite <- app_assoc.
Qed.

Lemma re_split_word (s : str) :
  blank s = false -> exists para, In para (Re.split s) /\ blank para = false.
Proof. intro Hb. apply split_scan_word. exact Hb. Qed.

Lemma not_blank_iff (s : str) : blank s = false <-> Py.split s <> [].
Proof.
  rewrite split_nil_iff. destruct (blank s); split; intro H0; try discriminate; try reflexivity.
  now contradiction H0.
Qed.

(* ===================================================================== *)
(** ** The chunk builder *)
(* ===================================================================== *)

Lemma fold_left_concat {A B} (f : A -> B -> A) (ls : list (list B)) (a : A) :
  fold_left f (concat ls) a = fold_left (fun a l => fold_left f l a) ls a.
Proof.
  revert a. induction ls as [|l ls IH]; intro a; simpl; [reflexivity|].
  now rewrite fold_left_app, IH.
Qed.

Section ChunkBuilder.

Context {E : Env}.
Variable self : MarkdownVectorDB.

(** The two nested loops are one loop over the sentences of the document. *)
Lemma chunk_loop_sentences (text : str) :
  chunk_loop self text
  = fold_left (chunk_sentence self) (sentences_of text) (Loop.mk [] [] 0).
Proof.
  unfold chunk_loop, sentences_of, chunk_paragraph.
  rewrite fold_left_concat.
  generalize (Loop.mk [] [] 0). generalize (Re.split (strip text)).
  induction l as [|para l IH]; intro st; simpl; [reflexivity|].
  apply IH.
Qed.

Lemma erase_words_sentence (w : Words.t) (sent : str) :
  Words.erase (words_sentence self w sent)
  = chunk_sentence self (Words.erase w) sent.
Proof.
  unfold words_sentence, chunk_sentence, Words.erase. simpl.
  destruct (chunk_size self <? Words.current_length w + len (Py.split sent)); simpl.
  - now rewrite map_app.
  - reflexivity.
Qed.

Lemma erase_fold (sents : list str) (w : Words.t) :
  Words.erase (fold_left (words_sentence self) sents w)
  = fold_left (chunk_sentence self) sents (Words.erase w).
Proof.
  revert w. induction sents as [|s sents IH]; intro w; simpl; [reflexivity|].
  now rewrite IH, erase_words_sentence.
Qed.

Lemma erase_words_loop (text : str) :
  Words.erase (words_loop self text) = chunk_loop self text.
Proof.
  unfold words_loop. now rewrite erase_fold, chunk_loop_sentences.
Qed.

(** Every chunk is its word list, joined by single spaces. *)
Lemma chunk_text_word_lists (text : str) :
  _chunk_text self text = map (join [SP]) (chunk_word_lists self text).
Proof.
  unfold _chunk_text, chunk_word_lists. rewrite <- erase_words_loop.
  destruct (words_loop self text) as [cl cur n]; simpl.
  destruct cur; [reflexivity|]. now rewrite map_app.
Qed.

Lemma words_sentence_counted (w : Words.t) (sent : str) :
  counted w -> counted (words_sentence self w sent).
Proof.
  unfold counted, words_sentence. intro Hc.
  destruct (chunk_size self <? Words.current_length w + len (Py.split sent)); simpl.
  - reflexivity.
  - rewrite len_app. lia.
Qed.

Lemma words_loop_counted (text : str) : counted (words_loop self text).
Proof.
  unfold words_loop.
  assert (H0 : counted (Words.mk [] [] 0)) by reflexivity. revert H0.
  generalize (Words.mk [] [] 0).
  induction (sentences_of text) as [|s sents IH]; intros w Hw; simpl; [exact Hw|].
  apply IH. now apply words_sentence_counted.
Qed.

Lemma words_sentence_started (w : Words.t) (sent : str) :
  started w \/ Py.split sent <> [] -> started (words_sentence self w sent).
Proof.
  unfold started, words_sentence.
  destruct (chunk_size self <? Words.current_length w + len (Py.split sent)); simpl.
  - intros _. left. now destruct (Words.closed w).
  - intros [[Hc|Hc]|Hs]; auto; right; intro H0; apply app_eq_nil in H0; tauto.
Qed.

Lemma words_fold_started (sents : list str) (w : Words.t) :
  started w \/ (exists s, In s sents /\ Py.split s <> []) ->
  started (fold_left (words_sentence self) sents w).
Proof.
  revert w. induction sents as [|s sents IH]; intros w H0; simpl.
  - destruct H0 as [H0|(s & [] & _)]. exact H0.
  - apply IH. destruct H0 as [H0|(s' & [<-|Hin] & Hs)].
    + left. apply words_sentence_started. now left.
    + left. apply words_sentence_started. now right.
    + right. now exists s'.
Qed.

Lemma chunk_word_lists_started (text : str) :
  started (words_loop self text) -> chunk_word_lists self text <> [].
Proof.
  unfold started, chunk_word_lists.
  destruct (words_loop self text) as [cl cur n]; simpl.
  intros [Hc|Hc]; destruct cur; try tauto; intro H0;
    apply app_eq_nil in H0; destruct H0; try discriminate; tauto.
Qed.

Lemma chunk_fold_chunks (sents : list str) (st : Loop.t) :
  exists more,
    Loop.chunks (fold_left (chunk_sentence self) sents st) = Loop.chunks st ++ more.
Proof.
  revert st. induction sents as [|s sents IH]; intro st; simpl.
  - exists []. now rewrite app_nil_r.
  - destruct (IH (chunk_sentence self st s)) as (more & ->).
    unfold chunk_sentence.
    destruct (chunk_size self <? Loop.current_length st + len (Py.split s)); simpl.
    + eexists. now rewrite <- app_assoc.
    + now exists more.
Qed.

Lemma slice_from_nil {A} (i : Z) : slice_from (@nil A) i = [].
Proof. unfold slice_from. now rewrite skipn_nil. Qed.

Lemma overlap_words_nil : overlap_words self [] = [].
Proof. unfold overlap_words. rewrite slice_from_nil. now destruct (0 <? overlap self). Qed.

(** *** Chains of neighbours *)

Lemma chain_snoc_replace {A} (R : A -> A -> Prop) (l : list A) (a a' : A) :
  (forall x, R x a -> R x a') -> chain R (l ++ [a]) -> chain R (l ++ [a']).
Proof.
  intro Hext. induction l as [|x l IH]; simpl; [trivial|].
  destruct l as [|y l]; simpl in *.
  - intros [H0 _]. split; [now apply Hext | trivial].
  - intros [H0 H1]. split; [exact H0 | now apply IH].
Qed.

Lemma chain_snoc_add {A} (R : A -> A -> Prop) (l : list A) (a b : A) :
  R a b -> chain R (l ++ [a]) -> chain R ((l ++ [a]) ++ [b]).
Proof.
  intro Hab. induction l as [|x l IH]; simpl; [tauto|].
  destruct l as [|y l]; simpl in *.
  - intros [H0 _]. tauto.
  - intros [H0 H1]. split; [exact H0 | now apply IH].
Qed.

Lemma chain_prefix {A} (R : A -> A -> Prop) (l : list A) (a : A) :
  chain R (l ++ [a]) -> chain R l.
Proof.
  induction l as [|x l IH]; simpl; [trivial|].
  destruct l as [|y l]; simpl in *; [trivial|].
  intros [H0 H1]. split; [exact H0 | now apply IH].
Qed.

Lemma chain_nth {A} (R : A -> A -> Prop) (l : list A) (i : nat) (a b : A) :
  chain R l -> nth_error l i = Some a -> nth_error l (S i) = Some b -> R a b.
Proof.
  revert i. induction l as [|x l IH]; intros i Hc Ha Hb; [destruct i; discriminate|].
  destruct l as [|y l]; [destruct i; discriminate|].
  destruct Hc as [Hxy Hc]. destruct i as [|i].
  - simpl in Ha, Hb. injection Ha as <-. injection Hb as <-. exact Hxy.
  - apply (IH i Hc); assumption.
Qed.

(** *** Overlap between neighbouring chunks *)

Lemma words_sentence_seeded (w : Words.t) (sent : str) :
  chain (seeded self) (Words.closed w ++ [Words.current_chunk w]) ->
  chain (seeded self) (Words.closed (words_sentence self w sent)
                ++ [Words.current_chunk (words_sentence self w sent)]).
Proof.
  unfold words_sentence.
  destruct (chunk_size self <? Words.current_length w + len (Py.split sent)); simpl.
  - apply chain_snoc_add. now exists (Py.split sent).
  - apply chain_snoc_replace. intros x (rest & ->).
    exists (rest ++ Py.split sent). now rewrite app_assoc.
Qed.

Lemma words_fold_seeded (sents : list str) (w : Words.t) :
  chain (seeded self) (Words.closed w ++ [Words.current_chunk w]) ->
  let w' := fold_left (words_sentence self) sents w in
  chain (seeded self) (Words.closed w' ++ [Words.current_chunk w']).
Proof.
  revert w. induction sents as [|s sents IH]; intros w Hc; simpl; [exact Hc|].
  apply IH. now apply words_sentence_seeded.
Qed.

Lemma chunk_word_lists_seeded (text : str) :
  chain (seeded self) (chunk_word_lists self text).
Proof.
  pose proof (words_fold_seeded (sentences_of text) (Words.mk [] [] 0) I) as Hc.
  unfold chunk_word_lists, words_loop. simpl in Hc.
  destruct (Words.current_chunk _); [now apply chain_prefix in Hc | exact Hc].
Qed.

(** *** Sentences stay whole *)

Lemma infix_refl_app {A} (before l : list A) : infix l (before ++ l).
Proof. exists before, []. now rewrite app_nil_r. Qed.

Lemma infix_app_r {A} (l c more : list A) : infix l c -> infix l (c ++ more).
Proof.
  intros (before & after & ->). exists before, (after ++ more).
  now rewrite <- !app_assoc.
Qed.

Lemma infix_nil_inv {A} (l : list A) : infix l [] -> l = [].
Proof.
  intros (before & after & H0). symmetry in H0.
  apply app_eq_nil in H0. destruct H0 as [_ H0].
  apply app_eq_nil in H0. tauto.
Qed.

Lemma infix_len {A} (l c : list A) : infix l c -> len l <= len c.
Proof.
  intros (before & after & ->). rewrite !len_app.
  pose proof (len_nonneg before). pose proof (len_nonneg after). lia.
Qed.

Lemma words_sentence_holds (w : Words.t) (sent : str) :
  held (words_sentence self w sent) (Py.split sent).
Proof.
  unfold held, words_sentence.
  destruct (chunk_size self <? Words.current_length w + len (Py.split sent)); simpl;
    eexists; (split; [apply in_or_app; right; left; reflexivity | apply infix_refl_app]).
Qed.

Lemma words_sentence_held (w : Words.t) (sent : str) (l : list str) :
  held w l -> held (words_sentence self w sent) l.
Proof.
  unfold held, words_sentence. intros (c & Hin & Hinf).
  destruct (chunk_size self <? Words.current_length w + len (Py.split sent)); simpl.
  - exists c. split; [apply in_or_app; now left | exact Hinf].
  - apply in_app_or in Hin. destruct Hin as [Hin|[<-|[]]].
    + exists c. split; [apply in_or_app; now left | exact Hinf].
    + eexists. split; [apply in_or_app; right; left; reflexivity|].
      now apply infix_app_r.
Qed.

Lemma words_fold_held (sents : list str) (w : Words.t) (l : list str) :
  held w l \/ (exists s, In s sents /\ l = Py.split s) ->
  held (fold_left (words_sentence self) sents w) l.
Proof.
  revert w. induction sents as [|s sents IH]; intros w H0; simpl.
  - destruct H0 as [H0|(s & [] & _)]. exact H0.
  - apply IH. destruct H0 as [H0|(s' & [<-|Hin] & ->)].
    + left. now apply words_sentence_held.
    + left. apply words_sentence_holds.
    + right. now exists s'.
Qed.

Lemma chunk_word_lists_held (text : str) (l : list str) :
  l <> [] -> held (words_loop self text) l ->
  exists c, In c (chunk_word_lists self text) /\ infix l c.
Proof.
  unfold held, chunk_word_lists. intros Hl (c & Hin & Hinf).
  destruct (Words.current_chunk (words_loop self text)) eqn:Hcur.
  - apply in_app_or in Hin. destruct Hin as [Hin|[<-|[]]].
    + now exists c.
    + apply infix_nil_inv in Hinf. contradiction.
  - now exists c.
Qed.

End ChunkBuilder.

(* ===================================================================== *)
(** ** The claims about the chunk builder *)
(* ===================================================================== *)

Section ChunkClaims.

Context {E : Env}.

(** C1, as the code has it.  When the words of a sentence added to the
    running count exceed [chunk_size], the accumulated words are joined and
    appended to the output, and the new accumulator is a seed followed by
    the words of the sentence, the running count being its length.  The
    seed is empty when [overlap <= 0], the last [overlap] words of the
    closed chunk when it has that many, and the whole closed chunk when it
    has fewer than [overlap] words. *)
Theorem chunk_sentence_overflow (self : MarkdownVectorDB) (st : Loop.t) (sent : str) :
  chunk_size self < Loop.current_length st + len (Py.split sent) ->
  let closed := Loop.current_chunk st in
  exists seed,
    chunk_sentence self st sent
    = Loop.mk (Loop.chunks st ++ [join [SP] closed])
              (seed ++ Py.split sent)
              (len (seed ++ Py.split sent))
    /\ (overlap self <= 0 -> seed = [])
    /\ (0 < overlap self <= len closed ->
        seed = skipn (length closed - Z.to_nat (overlap self)) closed
        /\ len seed = overlap self)
    /\ (len closed < overlap self -> seed = closed).
Proof.
  intros Hover closed. exists (overlap_words self closed). split.
  - unfold chunk_sentence. apply Z.ltb_lt in Hover. now rewrite Hover.
  - unfold overlap_words, slice_from, len. repeat split.
    + intro H0. apply Z.ltb_ge in H0. now rewrite H0.
    + destruct H as [H0 H1]. apply Z.ltb_lt in H0. rewrite H0.
      assert (H2 : (- overlap self <? 0) = true) by (apply Z.ltb_lt; apply Z.ltb_lt in H0; lia).
      rewrite H2. f_equal. apply Z.ltb_lt in H0. unfold len in H1. lia.
    + destruct H as [H0 H1]. apply Z.ltb_lt in H0. rewrite H0.
      assert (H2 : (- overlap self <? 0) = true) by (apply Z.ltb_lt; apply Z.ltb_lt in H0; lia).
      rewrite H2. rewrite length_skipn. apply Z.ltb_lt in H0. unfold len in H1. lia.
    + intro H0. pose proof (len_nonneg closed) as Hn. unfold len in H0, Hn.
      assert (H1 : (0 <? overlap self) = true) by (apply Z.ltb_lt; lia).
      assert (H2 : (- overlap self <? 0) = true) by (apply Z.ltb_lt; lia).
      rewrite H1, H2.
      replace (Z.to_nat (Z.max (Z.of_nat (length closed) + - overlap self) 0)) with 0%nat by lia.
      reflexivity.
Qed.

(** C9.  A sentence with more than [chunk_size] words that arrives while the
    accumulator is empty closes the empty accumulator: the empty string is
    appended to the chunks.  When it is the first sentence of the document,
    the first chunk of the document is the empty string. *)
Theorem empty_chunk_emitted (self : MarkdownVectorDB) (chunks : list str) (sent : str) :
  chunk_size self < len (Py.split sent) ->
  chunk_sentence self (Loop.mk chunks [] 0) sent
  = Loop.mk (chunks ++ [[]]) (Py.split sent) (len (Py.split sent))
  /\ (forall text rest, sentences_of text = sent :: rest ->
      exists more, _chunk_text self text = [] :: more).
Proof.
  intro Hlong.
  assert (Hstep : forall chunks, chunk_sentence self (Loop.mk chunks [] 0) sent
          = Loop.mk (chunks ++ [[]]) (Py.split sent) (len (Py.split sent))).
  { intro cs. unfold chunk_sentence. simpl.
    apply Z.ltb_lt in Hlong. rewrite Hlong. now rewrite overlap_words_nil. }
  split; [apply Hstep|].
  intros text rest Hs. unfold _chunk_text.
  rewrite chunk_loop_sentences, Hs. cbn [fold_left]. rewrite Hstep.
  match goal with
  | |- context [fold_left _ rest ?st1] =>
      destruct (chunk_fold_chunks self rest st1) as (more & Hm)
  end.
  rewrite Hm. cbn [Loop.chunks].
  destruct (Loop.current_chunk _); simpl; eexists; reflexivity.
Qed.

End ChunkClaims.

Section ChunkTextClaims.

Context {E : Env}.

(** C2, as the code has it.  With [overlap > 0], every chunk but the first
    begins with the trailing [overlap] words of the previous chunk's word
    list, or with all of the previous chunk's words when it has fewer; so
    when the previous chunk has at least [overlap] words, the leading
    [overlap] words of the chunk are the trailing [overlap] words of the
    previous one. *)
Theorem chunk_overlap_prefix (self : MarkdownVectorDB) (text : str) (i : nat)
    (prev next : list str) :
  0 < overlap self ->
  nth_error (chunk_word_lists self text) i = Some prev ->
  nth_error (chunk_word_lists self text) (S i) = Some next ->
  (exists rest, next = trailing (overlap self) prev ++ rest)
  /\ (len prev < overlap self -> exists rest, next = prev ++ rest)
  /\ (overlap self <= len prev ->
      leading (overlap self) next = trailing (overlap self) prev).
Proof.
  intros Hov Hp Hn.
  destruct (chain_nth _ _ _ _ _ (chunk_word_lists_seeded self text) Hp Hn) as (rest & ->).
  unfold overlap_words. apply Z.ltb_lt in Hov. rewrite Hov. apply Z.ltb_lt in Hov.
  fold (trailing (overlap self) prev).
  assert (Hneg : (- overlap self <? 0) = true) by (apply Z.ltb_lt; lia).
  repeat split.
  - now exists rest.
  - intro Hshort. exists rest. f_equal.
    unfold trailing, slice_from. rewrite Hneg.
    pose proof (len_nonneg prev).
    replace (Z.to_nat (Z.max (len prev + - overlap self) 0)) with 0%nat by lia.
    reflexivity.
  - intro Hlong. unfold leading. rewrite firstn_app.
    assert (Hlen : length (trailing (overlap self) prev) = Z.to_nat (overlap self)).
    { unfold trailing, slice_from. rewrite Hneg, length_skipn.
      unfold len in *. lia. }
    rewrite Hlen, Nat.sub_diag. simpl. rewrite app_nil_r.
    rewrite <- Hlen. apply firstn_all.
Qed.

(** C7.  A document with at least one word gives at least one chunk, and an
    empty or blank document gives none. *)
Theorem chunk_text_nonempty_iff_word `{!TokenizerContract E}
    (self : MarkdownVectorDB) (text : str) :
  (Py.split text <> [] -> _chunk_text self text <> [])
  /\ (blank text = true -> _chunk_text self text = []).
Proof.
  split.
  - intro Hw. apply not_blank_iff in Hw. rewrite <- blank_strip in Hw.
    destruct (re_split_word _ Hw) as (para & Hpara & Hb).
    apply not_blank_iff in Hb.
    destruct (tokenize_word para Hb) as (sent & Hsent & Hs).
    rewrite chunk_text_word_lists. intro H0. apply map_eq_nil in H0. revert H0.
    apply chunk_word_lists_started, words_fold_started. right.
    exists sent. split; [|exact Hs].
    unfold sentences_of. apply in_concat. exists (sent_tokenize para).
    split; [now apply in_map | exact Hsent].
  - intro Hb. rewrite chunk_text_word_lists.
    unfold chunk_word_lists, words_loop, sentences_of.
    rewrite (strip_blank text Hb). change (Re.split []) with [@nil char].
    simpl. now rewrite tokenize_empty.
Qed.

End ChunkTextClaims.

(* ===================================================================== *)
(** ** The reference environment meets the contracts *)
(* ===================================================================== *)

Module RefFacts.

Lemma insert_perm (p : Z * Z) (l : list (Z * Z)) :
  Permutation (Ref.insert p l) (p :: l).
Proof.
  induction l as [|q t IH]; simpl; [apply Permutation_refl|].
  destruct (fst p <? fst q); [apply Permutation_refl|].
  eapply Permutation_trans; [apply perm_skip, IH | apply perm_swap].
Qed.

Lemma fold_insert_perm (ps acc : list (Z * Z)) :
  Permutation (fold_left (fun acc p => Ref.insert p acc) ps acc) (ps ++ acc).
Proof.
  revert acc. induction ps as [|p ps IH]; intro acc; simpl; [apply Permutation_refl|].
  eapply Permutation_trans; [apply IH|].
  eapply Permutation_trans; [apply Permutation_app_head, insert_perm|].
  apply Permutation_sym, Permutation_middle.
Qed.

Lemma map_snd_combine {A B} (l1 : list A) (l2 : list B) :
  length l1 = length l2 -> map snd (combine l1 l2) = l2.
Proof.
  revert l2. induction l1 as [|a l1 IH]; intros [|b l2] Hl; simpl in *;
    try reflexivity; try discriminate.
  f_equal. apply IH. lia.
Qed.

Lemma ranked_labels (xb : list (list Z)) (x : list Z) :
  Permutation (map snd (Ref.ranked xb x)) (Ref.labels_of xb).
Proof.
  unfold Ref.ranked.
  eapply Permutation_trans; [apply Permutation_map, fold_insert_perm|].
  rewrite app_nil_r, map_snd_combine; [apply Permutation_refl|].
  unfold Ref.labels_of. now rewrite !length_map, length_seq.
Qed.

Lemma labels_of_NoDup (xb : list (list Z)) : NoDup (Ref.labels_of xb).
Proof.
  unfold Ref.labels_of. apply NoDup_map_NoDup_ForallPairs; [|apply seq_NoDup].
  intros a b _ _ Hab. lia.
Qed.

Lemma labels_of_range (xb : list (list Z)) (i : Z) :
  In i (Ref.labels_of xb) -> 0 <= i < len xb.
Proof.
  unfold Ref.labels_of, len. intro Hin. apply in_map_iff in Hin.
  destruct Hin as (j & <- & Hj). apply in_seq in Hj. lia.
Qed.

Lemma ranked_length (xb : list (list Z)) (x : list Z) :
  length (Ref.ranked xb x) = length xb.
Proof.
  rewrite <- (length_map snd), (Permutation_length (ranked_labels xb x)).
  unfold Ref.labels_of. now rewrite length_map, length_seq.
Qed.

Lemma NoDup_firstn {A} (n : nat) (l : list A) : NoDup l -> NoDup (firstn n l).
Proof.
  intro Hl. rewrite <- (firstn_skipn n l) in Hl.
  now apply NoDup_app_remove_r in Hl.
Qed.

Lemma In_firstn {A} (n : nat) (l : list A) (a : A) : In a (firstn n l) -> In a l.
Proof.
  intro Hin. rewrite <- (firstn_skipn n l). apply in_or_app. now left.
Qed.

Lemma best_length (xb : list (list Z)) (x : list Z) (k : Z) :
  0 < k ->
  length (firstn (Z.to_nat k) (Ref.ranked xb x)) = Z.to_nat (Z.min k (len xb)).
Proof.
  intro Hk. rewrite length_firstn, ranked_length. unfold len. lia.
Qed.

Lemma flat_search_contract (files : list (str * str)) :
  FlatSearchContract (Ref.env files).
Proof.
  constructor; simpl; unfold Ref.flat_search; intros xb x k Hk; simpl.
  - unfold len. rewrite length_app, length_map, repeat_length, (best_length xb x k Hk).
    unfold len. lia.
  - unfold len. rewrite length_app, length_map, repeat_length, (best_length xb x k Hk).
    unfold len. lia.
  - unfold leading. rewrite firstn_app, length_map, (best_length xb x k Hk).
    rewrite Nat.sub_diag. simpl. rewrite app_nil_r.
    rewrite firstn_all2 by (rewrite length_map, (best_length xb x k Hk); lia).
    rewrite <- firstn_map. split.
    + apply NoDup_firstn.
      apply (Permutation_NoDup (Permutation_sym (ranked_labels xb x))).
      apply labels_of_NoDup.
    + intros i Hin. apply In_firstn in Hin.
      apply (Permutation_in _ (ranked_labels xb x)) in Hin.
      now apply labels_of_range.
  - unfold slice_from.
    pose proof (len_nonneg xb) as Hn.
    assert (Hlt : (Z.min k (len xb) <? 0) = false) by (apply Z.ltb_ge; lia).
    rewrite Hlt.
    assert (Hlen : len (map snd (firstn (Z.to_nat k) (Ref.ranked xb x))
                        ++ repeat (-1) (Z.to_nat k - length (firstn (Z.to_nat k) (Ref.ranked xb x))))
                   = k).
    { unfold len. rewrite length_app, length_map, repeat_length, (best_length xb x k Hk).
      unfold len. lia. }
    rewrite Hlen, Z.min_l by lia.
    rewrite skipn_app, length_map, (best_length xb x k Hk), Nat.sub_diag. simpl.
    rewrite skipn_all2 by (rewrite length_map, (best_length xb x k Hk); lia).
    simpl. f_equal. lia.
Qed.

Lemma tokenizer_contract (files : list (str * str)) :
  TokenizerContract (Ref.env files).
Proof.
  constructor; simpl.
  - reflexivity.
  - intros para Hw. exists para. split; [|exact Hw].
    destruct para; [now contradiction Hw | now left].
Qed.

End RefFacts.

(* ===================================================================== *)
(** ** Indexing, comprehensions and the search result *)
(* ===================================================================== *)

Lemma getitem_in_range {A} (l : list A) (i : Z) (dflt : A) :
  0 <= i < len l -> getitem l i = inr (nth (Z.to_nat i) l dflt).
Proof.
  intro Hi. unfold getitem.
  assert (H0 : (i <? 0) = false) by (apply Z.ltb_ge; lia).
  assert (H1 : (len l <=? i) = false) by (apply Z.leb_gt; lia).
  rewrite H0, H0, H1. simpl.
  destruct (nth_error l (Z.to_nat i)) as [x|] eqn:Hx.
  - now rewrite (nth_error_nth _ _ dflt Hx).
  - apply nth_error_None in Hx. unfold len in Hi. lia.
Qed.

Lemma getitem_minus_one {A} (l : list A) (dflt : A) :
  l <> [] -> getitem l (-1) = inr (last l dflt).
Proof.
  intro Hl. destruct (exists_last Hl) as (l' & a & ->). clear Hl.
  unfold getitem. change (-1 <? 0) with true. cbv beta iota zeta.
  assert (Hlen : -1 + len (l' ++ [a]) = Z.of_nat (length l')).
  { rewrite len_app. unfold len. simpl length. lia. }
  rewrite Hlen.
  assert (H0 : (Z.of_nat (length l') <? 0) = false) by (apply Z.ltb_ge; lia).
  assert (H1 : (len (l' ++ [a]) <=? Z.of_nat (length l')) = false) by (apply Z.leb_gt; lia).
  rewrite H0, H1, Nat2Z.id. simpl.
  rewrite nth_error_app2, Nat.sub_diag by lia. simpl.
  now rewrite last_last.
Qed.

Lemma comprehension_map {A B} (f : A -> exn + B) (g : A -> B) (l : list A) :
  (forall a, In a l -> f a = inr (g a)) -> comprehension f l = inr (map g l).
Proof.
  induction l as [|a l IH]; intro Hf; simpl; [reflexivity|].
  rewrite (Hf a (or_introl eq_refl)). simpl.
  rewrite IH by (intros b Hb; apply Hf; now right). reflexivity.
Qed.

Lemma comprehension_length {A B} (f : A -> exn + B) (l : list A) (l' : list B) :
  comprehension f l = inr l' -> length l' = length l.
Proof.
  revert l'. induction l as [|a l IH]; intros l'; simpl.
  - intro H0. now injection H0 as <-.
  - destruct (f a) as [e|b]; simpl; [discriminate|].
    destruct (comprehension f l) as [e|bs]; simpl; [discriminate|].
    intro H0. injection H0 as <-. simpl. f_equal. now apply IH.
Qed.

Lemma map_nth_seq {A} (l : list A) (dflt : A) :
  map (fun j => nth j l dflt) (seq 0 (length l)) = l.
Proof.
  induction l as [|a l IH]; simpl; [reflexivity|].
  f_equal. rewrite <- seq_shift, map_map. exact IH.
Qed.

Lemma chunk_at_labels (chunks : list str) :
  map (chunk_at chunks) (labels (len chunks)) = chunks.
Proof.
  unfold labels, chunk_at, len. rewrite Nat2Z.id, map_map.
  transitivity (map (fun j => nth j chunks []) (seq 0 (length chunks))).
  - apply map_ext. intro j. now rewrite Nat2Z.id.
  - apply map_nth_seq.
Qed.

Lemma in_labels (n i : Z) : 0 <= i < n -> In i (labels n).
Proof.
  intro Hi. unfold labels. apply in_map_iff. exists (Z.to_nat i).
  split; [lia | apply in_seq; lia].
Qed.

Lemma labels_length (n : Z) : length (labels n) = Z.to_nat n.
Proof. unfold labels. now rewrite length_map, length_seq. Qed.

Section SearchResult.

Context {E : Env} `{!FlatSearchContract E}.

(** The labels of a search for more neighbours than there are rows: every
    stored row once, then the label [-1] for each missing neighbour. *)
Lemma flat_search_beyond (xb : list (list scalar)) (x : list scalar) (k : Z) :
  len xb < k ->
  exists found,
    snd (flat_search xb x k) = found ++ repeat (-1) (Z.to_nat (k - len xb))
    /\ len found = len xb
    /\ Permutation found (labels (len xb))
    /\ forall i, In i found -> 0 <= i < len xb.
Proof.
  intro Hk. pose proof (len_nonneg xb) as Hn.
  assert (Hk0 : 0 < k) by lia.
  pose proof (search_labels xb x k Hk0) as Hlen.
  pose proof (search_found xb x k Hk0) as [Hnd Hrange].
  pose proof (search_padding xb x k Hk0) as Hpad.
  rewrite Z.min_r in Hnd, Hrange, Hpad by lia.
  set (I0 := snd (flat_search xb x k)) in *.
  exists (leading (len xb) I0).
  assert (Hfl : len (leading (len xb) I0) = len xb).
  { unfold leading, len in *. rewrite length_firstn. lia. }
  split; [|split; [|split]].
  - rewrite <- Hpad. unfold leading, slice_from.
    assert (H0 : (len xb <? 0) = false) by (apply Z.ltb_ge; lia).
    rewrite H0, Hlen, Z.min_l by lia.
    symmetry. apply firstn_skipn.
  - exact Hfl.
  - apply NoDup_Permutation_bis.
    + exact Hnd.
    + rewrite labels_length. unfold len in Hfl |- *. lia.
    + intros i Hi. apply in_labels. now apply Hrange.
  - exact Hrange.
Qed.

End SearchResult.

Section Session.

Context {E : Env}.

(** What [__init__] leaves when it returns: an index with one row per chunk,
    and at least one chunk. *)
Lemma new_session (api_key path : str) (cs ov : Z) (self : MarkdownVectorDB) :
  new api_key path cs ov = inr self ->
  exists idx, index self = Some idx
              /\ len (xb idx) = len (chunks self)
              /\ chunks self <> [].
Proof.
  unfold new, __init__, _load_markdown, _create_index, bind, assign, read, call, id.
  destruct (Client api_key) as [e|c]; [discriminate|].
  cbn [markdown_path fresh].
  destruct (read_text path) as [e|contents]; [discriminate|].
  cbn [client chunks set_chunks fresh].
  set (cks := _chunk_text _ contents).
  destruct (comprehension _ cks) as [e|embeddings] eqn:Hemb; [discriminate|].
  apply comprehension_length in Hemb.
  destruct embeddings as [|r rs].
  - simpl. discriminate.
  - unfold np_array.
    destruct (forallb _ rs); [|discriminate]. cbn [shape rows].
    unfold getitem at 1. simpl.
    unfold IndexFlatL2_add. cbn [shape d xb rows].
    unfold getitem. simpl. rewrite Z.eqb_refl.
    intro H0. injection H0 as <-. cbn [index chunks set_index set_chunks].
    eexists. split; [reflexivity|]. cbn [xb]. split.
    + unfold len. now rewrite Hemb.
    + intro H0. rewrite H0 in Hemb. discriminate.
Qed.

End Session.

(* ===================================================================== *)
(** ** The claims about the session and the query *)
(* ===================================================================== *)

Section QueryClaims.

Context {E : Env}.

(** C3, as the code has it.  A search for [k] neighbours in an index of
    [n < k] rows raises no error and returns [k] entries, not [n]: the [n]
    stored rows once each, followed by [k - n] entries with the label [-1];
    so a query with [top_k = 3] on two chunks gets three entries. *)
Theorem search_beyond_stored `{!FlatSearchContract E}
    (idx : IndexFlatL2) (x : list scalar) (k : Z) :
  len x = d idx ->
  len (xb idx) < k ->
  exists D I0 found,
    IndexFlatL2_search idx x k = inr (D, I0)
    /\ len D = k
    /\ len I0 = k
    /\ I0 = found ++ repeat (-1) (Z.to_nat (k - len (xb idx)))
    /\ Permutation found (labels (len (xb idx)))
    /\ forall self, index self = Some idx -> index_search self x k = inr (D, I0).
Proof.
  intros Hd Hk. pose proof (len_nonneg (xb idx)) as Hn.
  assert (Hk0 : 0 < k) by lia.
  destruct (flat_search_beyond (xb idx) x k Hk) as (found & Hfound & _ & Hperm & _).
  assert (Hs : IndexFlatL2_search idx x k = inr (flat_search (xb idx) x k)).
  { unfold IndexFlatL2_search. apply Z.eqb_eq in Hd. rewrite Hd.
    apply Z.ltb_lt in Hk0. now rewrite Hk0. }
  exists (fst (flat_search (xb idx) x k)), (snd (flat_search (xb idx) x k)), found.
  rewrite <- surjective_pairing. repeat split.
  - exact Hs.
  - now apply search_distances.
  - now apply search_labels.
  - exact Hfound.
  - exact Hperm.
  - intros self Hidx. unfold index_search. now rewrite Hidx.
Qed.

(** C10.  In a built session of [n] chunks, a query for [top_k > n] chunks
    whose search returns raises no [IndexError]: the labels are the [n]
    chunks once each and then [top_k - n] times the label [-1], which
    [self.chunks[-1]] reads as the last chunk, so the context has [top_k]
    lines, the last chunk being repeated in the last [top_k - n] of them. *)
Theorem query_repeats_last_chunk `{!FlatSearchContract E}
    (api_key path : str) (cs ov : Z) (self : MarkdownVectorDB)
    (question : str) (top_k : Z) (qvec D : list scalar) (I0 : list Z) :
  new api_key path cs ov = inr self ->
  len (chunks self) < top_k ->
  embed_content (client self) RETRIEVAL_QUERY question = inr qvec ->
  index_search self qvec top_k = inr (D, I0) ->
  exists found lines,
    I0 = found ++ repeat (-1) (Z.to_nat (top_k - len (chunks self)))
    /\ comprehension (getitem (chunks self)) found = inr lines
    /\ Permutation lines (chunks self)
    /\ getitem (chunks self) (-1) = inr (last (chunks self) [])
    /\ let padded :=
         lines ++ repeat (last (chunks self) []) (Z.to_nat (top_k - len (chunks self))) in
       len padded = top_k
       /\ context_of (chunks self) I0 = inr (join [NL] padded)
       /\ fst (query question top_k self)
          = generate_content (client self) (prompt_of (join [NL] padded) question).
Proof.
  intros Hnew Hk Hq Hsearch.
  destruct (new_session _ _ _ _ _ Hnew) as (idx & Hidx & Hrows & Hne).
  assert (HI : I0 = snd (flat_search (xb idx) qvec top_k)).
  { revert Hsearch. unfold index_search, IndexFlatL2_search. rewrite Hidx.
    destruct (negb _); [discriminate|]. destruct (negb _); [discriminate|].
    intro H0. injection H0 as H0. now rewrite H0. }
  rewrite <- Hrows in Hk.
  destruct (flat_search_beyond (xb idx) qvec top_k Hk) as (found & Hfound & Hlen & Hperm & Hrange).
  rewrite <- HI, Hrows in Hfound. rewrite Hrows in Hlen, Hperm, Hrange, Hk.
  set (lst := last (chunks self) []).
  set (m := Z.to_nat (top_k - len (chunks self))) in *.
  assert (Hlast : getitem (chunks self) (-1) = inr lst)
    by now apply getitem_minus_one.
  assert (Hlines : comprehension (getitem (chunks self)) found
                   = inr (map (chunk_at (chunks self)) found)).
  { apply comprehension_map. intros i Hi. apply getitem_in_range. now apply Hrange. }
  assert (Hall : comprehension (getitem (chunks self)) I0
                 = inr (map (chunk_at (chunks self)) found ++ repeat lst m)).
  { rewrite Hfound.
    rewrite (comprehension_map _
               (fun i => if i <? 0 then lst else chunk_at (chunks self) i)).
    - rewrite map_app, map_repeat. simpl. f_equal. f_equal.
      apply map_ext_in. intros i Hi. apply Hrange in Hi.
      assert (H0 : (i <? 0) = false) by (apply Z.ltb_ge; lia). now rewrite H0.
    - intros i Hi. apply in_app_or in Hi. destruct Hi as [Hi|Hi].
      + apply Hrange in Hi.
        assert (H0 : (i <? 0) = false) by (apply Z.ltb_ge; lia). rewrite H0.
        now apply getitem_in_range.
      + apply repeat_spec in Hi. subst i. exact Hlast. }
  assert (Hctx : context_of (chunks self) I0
                 = inr (join [NL] (map (chunk_at (chunks self)) found ++ repeat lst m))).
  { unfold context_of. now rewrite Hall. }
  exists found, (map (chunk_at (chunks self)) found).
  split; [exact Hfound|]. split; [exact Hlines|]. split.
  { rewrite <- (chunk_at_labels (chunks self)) at 2. now apply Permutation_map. }
  split; [exact Hlast|]. cbv zeta. split; [|split].
  - rewrite len_app. unfold len at 1 2. rewrite length_map, repeat_length.
    fold (len found). rewrite Hlen. unfold m. lia.
  - exact Hctx.
  - unfold query, bind, read, call, ret, id. rewrite Hq, Hsearch. cbn [snd].
    rewrite Hctx. now destruct (generate_content _ _).
Qed.

(** C4, as the code has it.  When the document gives no chunk, the build
    fails and nothing is kept: the constructor raises what [genai.Client]
    raised, before the file is read, or else the [IndexError] of
    [embeddings.shape[1]] on the empty matrix (the code has no
    [IndexBuildError]); no index was created by then, and the caller gets
    the exception and no object. *)
Theorem new_empty_document (api_key path : str) (cs ov : Z) (text : str) :
  read_text path = inr text ->
  (forall client, _chunk_text (fresh client path cs ov) text = []) ->
  (forall e, Client api_key = inl e ->
     new api_key path cs ov = inl e
     /\ forall blank_self,
          __init__ api_key path cs ov blank_self = (inl e, blank_self))
  /\ (forall client, Client api_key = inr client ->
       new api_key path cs ov = inl IndexError
       /\ forall blank_self,
            __init__ api_key path cs ov blank_self
            = (inl IndexError, fresh client path cs ov)).
Proof.
  intros Hread Hchunks. split.
  - intros e Hclient.
    assert (Hinit : forall blank_self,
               __init__ api_key path cs ov blank_self = (inl e, blank_self)).
    { intro blank_self. unfold __init__, bind, call. now rewrite Hclient. }
    split; [|exact Hinit]. unfold new. now rewrite Hinit.
  - intros c Hclient.
    assert (Hinit : forall blank_self,
               __init__ api_key path cs ov blank_self
               = (inl IndexError, fresh c path cs ov)).
    { intro blank_self.
      unfold __init__, _load_markdown, _create_index, bind, assign, read, call, id.
      rewrite Hclient. cbn [markdown_path fresh]. rewrite Hread.
      change (_chunk_text _ text) with (_chunk_text (fresh c path cs ov) text).
      rewrite (Hchunks c). reflexivity. }
    split; [|exact Hinit].
    unfold new. now rewrite Hinit.
Qed.

(** C8.  A query, whatever its outcome, leaves the fields of [self] as they
    were: the chunk list and the index with its stored vectors after the
    query are those before it. *)
Theorem query_frame (self : MarkdownVectorDB) (question : str) (top_k : Z) :
  snd (query question top_k self) = self
  /\ chunks (snd (query question top_k self)) = chunks self
  /\ index (snd (query question top_k self)) = index self.
Proof.
  assert (Hsame : snd (query question top_k self) = self).
  { unfold query, bind, read, call, ret, id.
    destruct (embed_content _ _ _) as [e|qvec]; [reflexivity|].
    destruct (index_search _ _ _) as [e|DI]; [reflexivity|].
    destruct (context_of _ _) as [e|context]; [reflexivity|].
    destruct (generate_content _ _) as [e|resp]; reflexivity. }
  now rewrite Hsame.
Qed.

End QueryClaims.

(* ===================================================================== *)
(** ** Concrete runs *)
(* ===================================================================== *)

Example re_split_blank_lines :
  Re.split (lit "a b" ++ [NL; SP; NL; NL; SP] ++ lit "c" ++ [NL] ++ lit "d")
  = [lit "a b"; [SP] ++ lit "c" ++ [NL] ++ lit "d"].
Proof. reflexivity. Qed.

Example re_split_no_blank_line :
  Re.split (lit "a" ++ [NL] ++ lit "b") = [lit "a" ++ [NL] ++ lit "b"].
Proof. reflexivity. Qed.

Example re_split_empty : Re.split [] = [[]].
Proof. reflexivity. Qed.

Example split_words :
  Py.split ([SP; 9%N] ++ lit "a  bc" ++ [NL; 160%N] ++ lit "d ")
  = [lit "a"; lit "bc"; lit "d"].
Proof. reflexivity. Qed.

Example strip_both_ends : strip ([NL] ++ lit "  a b " ++ [NL]) = lit "a b".
Proof. reflexivity. Qed.

Example slice_last_two : slice_from [1; 2; 3] (-2) = [2; 3].
Proof. reflexivity. Qed.

Example slice_beyond_start : slice_from [1; 2; 3] (-5) = [1; 2; 3].
Proof. reflexivity. Qed.

Example getitem_negative : getitem [1; 2; 3] (-1) = inr 3.
Proof. reflexivity. Qed.

Example getitem_out_of_range :
  getitem [1; 2; 3] 3 = inl IndexError /\ getitem [1; 2; 3] (-4) = inl IndexError.
Proof. split; reflexivity. Qed.

(** Paragraphs of six and five words with [chunk_size = 8], [overlap = 1]:
    two chunks, the second beginning with the last word of the first. *)
Example chunk_text_two_paragraphs :
  _chunk_text (fresh (E := Ref.demo) [] [] 8 1)
    (lit "a b c d e f" ++ [NL; NL] ++ lit "g h i j k")
  = [lit "a b c d e f"; lit "f g h i j k"].
Proof. reflexivity. Qed.

Example ranked_stable :
  Ref.flat_search [[0; 2]; [1; 1]; [2; 0]; [1; 1]] [1; 1] 3
  = ([0; 0; 2], [1; 3; 0]).
Proof. reflexivity. Qed.

(** C1 as the specification words it fails: with [chunk_size = 3] and
    [overlap = 2], the accumulator [["a"]] and the sentence ["b c d"], the
    closed chunk has fewer than [overlap] words and the new accumulator
    still begins with them. *)
Lemma seed_of_short_chunk_counterexample :
  let st := Loop.mk [] [lit "a"] 1 in
  let sent := lit "b c d" in
  chunk_size Ref.demo_db < Loop.current_length st + len (Py.split sent)
  /\ len (Loop.current_chunk st) < overlap Ref.demo_db
  /\ Loop.current_chunk (chunk_sentence Ref.demo_db st sent)
     = [lit "a"; lit "b"; lit "c"; lit "d"]
  /\ Loop.current_chunk (chunk_sentence Ref.demo_db st sent)
     <> spec_seed (overlap Ref.demo_db) (Loop.current_chunk st) ++ Py.split sent.
Proof.
  cbv zeta. repeat split; try reflexivity.
  intro H0. vm_compute in H0. discriminate.
Qed.

Lemma chunk_sentence_overflow_witness :
  let st := Loop.mk [lit "x"] [lit "a"; lit "b"; lit "c"] 3 in
  let sent := lit "d e" in
  chunk_size Ref.demo_db < Loop.current_length st + len (Py.split sent)
  /\ exists seed,
       chunk_sentence Ref.demo_db st sent
       = Loop.mk [lit "x"; lit "a b c"] (seed ++ [lit "d"; lit "e"])
                 (len (seed ++ [lit "d"; lit "e"]))
       /\ seed = [lit "b"; lit "c"].
Proof.
  cbv zeta. split; [reflexivity|].
  destruct (chunk_sentence_overflow Ref.demo_db
              (Loop.mk [lit "x"] [lit "a"; lit "b"; lit "c"] 3) (lit "d e") eq_refl)
    as (seed & Hstep & _ & Hlast & _).
  exists seed. split; [exact Hstep|].
  apply Hlast. split; [reflexivity | vm_compute; discriminate].
Defined.

(** C2 as the specification words it fails: the first chunk of [a_bcd.md]
    has one word, fewer than [overlap = 2]; the second chunk begins with it,
    and its two leading words are not the trailing words of the first. *)
Lemma overlap_of_short_chunk_counterexample :
  exists prev next,
    0 < overlap Ref.demo_db
    /\ chunk_word_lists Ref.demo_db Ref.doc_a_bcd = [prev; next]
    /\ nth_error (chunk_word_lists Ref.demo_db Ref.doc_a_bcd) 0 = Some prev
    /\ nth_error (chunk_word_lists Ref.demo_db Ref.doc_a_bcd) 1 = Some next
    /\ leading (overlap Ref.demo_db) next = [lit "a"; lit "b"]
    /\ trailing (overlap Ref.demo_db) prev = [lit "a"]
    /\ leading (overlap Ref.demo_db) next <> trailing (overlap Ref.demo_db) prev.
Proof.
  exists [lit "a"], [lit "a"; lit "b"; lit "c"; lit "d"].
  repeat split; try reflexivity.
  intro H0. vm_compute in H0. discriminate.
Qed.

Lemma chunk_overlap_prefix_witness :
  0 < overlap Ref.self_ab_cd
  /\ nth_error (chunk_word_lists Ref.self_ab_cd Ref.doc_ab_cd) 0
     = Some [lit "a"; lit "b"]
  /\ nth_error (chunk_word_lists Ref.self_ab_cd Ref.doc_ab_cd) 1
     = Some [lit "b"; lit "c"; lit "d"]
  /\ leading (overlap Ref.self_ab_cd) [lit "b"; lit "c"; lit "d"]
     = trailing (overlap Ref.self_ab_cd) [lit "a"; lit "b"].
Proof.
  do 3 (split; [reflexivity|]).
  apply (chunk_overlap_prefix Ref.self_ab_cd Ref.doc_ab_cd 0
           [lit "a"; lit "b"] [lit "b"; lit "c"; lit "d"] eq_refl eq_refl eq_refl).
  vm_compute. discriminate.
Defined.

Lemma chunk_text_nonempty_iff_word_witness :
  _chunk_text Ref.demo_db Ref.doc_a_bcd <> []
  /\ _chunk_text Ref.demo_db (lit "  ") = [].
Proof.
  pose proof (@chunk_text_nonempty_iff_word Ref.demo
                (RefFacts.tokenizer_contract _) Ref.demo_db) as Hc.
  split.
  - apply (proj1 (Hc Ref.doc_a_bcd)). vm_compute. discriminate.
  - apply (proj2 (Hc (lit "  "))). reflexivity.
Defined.

Lemma empty_chunk_emitted_witness :
  chunk_size Ref.self_small < len (Py.split (lit "b c d"))
  /\ chunk_sentence Ref.self_small (Loop.mk [lit "a"] [] 0) (lit "b c d")
     = Loop.mk [lit "a"; []] [lit "b"; lit "c"; lit "d"] 3.
Proof.
  split; [reflexivity|].
  apply (proj1 (empty_chunk_emitted Ref.self_small [lit "a"] (lit "b c d") eq_refl)).
Defined.

(** C3 as the specification words it fails: the session built from
    [a_bcd.md] has two chunks, and the search for three neighbours returns
    three entries, the third being the label [-1]. *)
Lemma three_entries_for_two_chunks_counterexample :
  @new Ref.demo (lit "key") (lit "a_bcd.md") 3 2 = inr Ref.demo_db
  /\ len (chunks Ref.demo_db) = 2
  /\ embed_content (Env := Ref.demo) (client Ref.demo_db) RETRIEVAL_QUERY (lit "b")
     = inr [1; 1]
  /\ index_search Ref.demo_db [1; 1] 3
     = inr ([0; 45; Ref.FLT_MAX], [0; 1; -1])
  /\ len [0; 1; -1] <> Z.min 3 (len (chunks Ref.demo_db)).
Proof.
  repeat split; try reflexivity.
  intro H0. vm_compute in H0. discriminate.
Qed.

Lemma search_beyond_stored_witness :
  let idx := @Build_IndexFlatL2 Ref.demo 2 [[1; 1]; [7; 4]] in
  len [1; 1] = d idx
  /\ len (xb idx) < 3
  /\ exists D I0 found,
       IndexFlatL2_search idx [1; 1] 3 = inr (D, I0)
       /\ len I0 = 3
       /\ I0 = found ++ [-1]
       /\ Permutation found [0; 1].
Proof.
  cbv zeta. split; [reflexivity|]. split; [reflexivity|].
  destruct (@search_beyond_stored Ref.demo (RefFacts.flat_search_contract _)
              (@Build_IndexFlatL2 Ref.demo 2 [[1; 1]; [7; 4]]) [1; 1] 3 eq_refl eq_refl)
    as (D & I0 & found & Hs & _ & Hlen & Hshape & Hperm & _).
  exists D, I0, found. repeat split; assumption.
Defined.

Lemma query_repeats_last_chunk_witness :
  @new Ref.demo (lit "key") (lit "a_bcd.md") 3 2 = inr Ref.demo_db
  /\ len (chunks Ref.demo_db) < 3
  /\ embed_content (Env := Ref.demo) (client Ref.demo_db) RETRIEVAL_QUERY (lit "b")
     = inr [1; 1]
  /\ index_search Ref.demo_db [1; 1] 3 = inr ([0; 45; Ref.FLT_MAX], [0; 1; -1])
  /\ context_of (chunks Ref.demo_db) [0; 1; -1]
     = inr (lit "a" ++ [NL] ++ lit "a b c d" ++ [NL] ++ lit "a b c d")
  /\ exists lines,
       Permutation lines (chunks Ref.demo_db)
       /\ context_of (chunks Ref.demo_db) [0; 1; -1]
          = inr (join [NL] (lines ++ [lit "a b c d"])).
Proof.
  repeat (split; [reflexivity|]).
  destruct (@query_repeats_last_chunk Ref.demo (RefFacts.flat_search_contract _)
              (lit "key") (lit "a_bcd.md") 3 2 Ref.demo_db (lit "b") 3
              [1; 1] [0; 45; Ref.FLT_MAX] [0; 1; -1]
              eq_refl eq_refl eq_refl eq_refl)
    as (found & lines & _ & _ & Hperm & _ & _ & Hctx & _).
  exists lines. split; [exact Hperm | exact Hctx].
Defined.

(** C4 as the specification words it fails: the build from the empty file
    raises, and the class of the exception is [IndexError]. *)
Lemma empty_document_error_counterexample :
  exists e,
    @new Ref.demo (lit "key") (lit "empty.md") 800 100 = inl e
    /\ exn_class e = "IndexError"%string
    /\ exn_class e <> "IndexBuildError"%string.
Proof.
  exists IndexError. repeat split; try reflexivity.
  intro H0. discriminate.
Qed.

Lemma new_empty_document_witness :
  read_text (Env := Ref.demo) (lit "empty.md") = inr []
  /\ (forall client,
        _chunk_text (fresh (E := Ref.demo) client (lit "empty.md") 800 100) [] = [])
  /\ Client (Env := Ref.demo) (lit "key") = inr (lit "key")
  /\ @new Ref.demo (lit "key") (lit "empty.md") 800 100 = inl IndexError
  /\ Client (Env := Ref.demo) [] = inl ValueError
  /\ @new Ref.demo [] (lit "empty.md") 800 100 = inl ValueError.
Proof.
  assert (Hchunks : forall client,
            _chunk_text (fresh (E := Ref.demo) client (lit "empty.md") 800 100) [] = [])
    by (intro client; reflexivity).
  split; [reflexivity|]. split; [exact Hchunks|]. split; [reflexivity|]. split.
  - apply (proj2 (@new_empty_document Ref.demo (lit "key") (lit "empty.md") 800 100 []
                    eq_refl Hchunks) (lit "key") eq_refl).
  - split; [reflexivity|].
    apply (proj1 (@new_empty_document Ref.demo [] (lit "empty.md") 800 100 []
                    eq_refl Hchunks) ValueError eq_refl).
Defined.

(* ===================================================================== *)
(** ** Words through [strip], [re.split] and [split] *)
(* ===================================================================== *)

Lemma split_from_blank (ws w : str) :
  blank ws = true -> split_from w ws = split_from w [].
Proof.
  revert w. induction ws as [|c t IH]; intros w Hb; [reflexivity|].
  simpl in Hb. apply andb_prop in Hb. destruct Hb as [Hc Ht].
  simpl. rewrite Hc. destruct w as [|a w]; rewrite (IH [] Ht); reflexivity.
Qed.

Lemma split_from_skip_blank (ws r : str) :
  blank ws = true -> split_from [] (ws ++ r) = split_from [] r.
Proof.
  induction ws as [|c t IH]; intro Hb; [reflexivity|].
  simpl in Hb. apply andb_prop in Hb. destruct Hb as [Hc Ht].
  simpl. rewrite Hc. now apply IH.
Qed.

(** White space between two texts separates their words. *)
Lemma split_from_sep (p sep r w : str) :
  blank sep = true -> sep <> [] ->
  split_from w (p ++ sep ++ r) = split_from w p ++ Py.split r.
Proof.
  intros Hb Hne. revert w. induction p as [|c p IH]; intro w.
  - destruct sep as [|c sep]; [now contradiction Hne|].
    simpl in Hb. apply andb_prop in Hb. destruct Hb as [Hc Ht].
    simpl. rewrite Hc, (split_from_skip_blank sep r Ht).
    now destruct w.
  - simpl. destruct (isspace c).
    + destruct w; rewrite IH; reflexivity.
    + apply IH.
Qed.

Lemma split_from_app_blank (p ws w : str) :
  blank ws = true -> split_from w (p ++ ws) = split_from w p.
Proof.
  intro Hb. revert w. induction p as [|c p IH]; intro w.
  - simpl. now apply split_from_blank.
  - simpl. destruct (isspace c).
    + destruct w; rewrite IH; reflexivity.
    + apply IH.
Qed.

Lemma lstrip_decompose (s : str) :
  exists ws, blank ws = true /\ s = ws ++ lstrip s.
Proof.
  induction s as [|c t (ws & Hb & Ht)]; [now exists []|].
  simpl. destruct (isspace c) eqn:Hc.
  - exists (c :: ws). simpl. rewrite Hc, Hb. split; [reflexivity | now f_equal].
  - now exists [].
Qed.

Lemma split_lstrip (s : str) : Py.split (lstrip s) = Py.split s.
Proof.
  destruct (lstrip_decompose s) as (ws & Hb & Hs).
  rewrite Hs at 2. unfold Py.split. now rewrite split_from_skip_blank.
Qed.

Lemma split_rstrip (s : str) : Py.split (rstrip s) = Py.split s.
Proof.
  unfold rstrip. destruct (lstrip_decompose (rev s)) as (ws & Hb & Hs).
  apply (f_equal (@rev char)) in Hs. rewrite rev_involutive, rev_app_distr in Hs.
  rewrite Hs at 2. unfold Py.split.
  rewrite split_from_app_blank; [reflexivity | now rewrite blank_rev].
Qed.

Lemma split_strip (s : str) : Py.split (strip s) = Py.split s.
Proof. unfold strip. now rewrite split_rstrip, split_lstrip. Qed.

Lemma split_scan_words (fuel : nat) (cur s : str) :
  concat (map Py.split (Re.split_scan fuel cur s)) = Py.split (cur ++ s).
Proof.
  revert cur s. induction fuel as [|f IH]; intros cur s.
  - simpl. apply app_nil_r.
  - destruct s as [|c t].
    + simpl. now rewrite !app_nil_r.
    + change (Re.split_scan (S f) cur (c :: t))
        with (match Re.match_sep (c :: t) with
              | Some rest => cur :: Re.split_scan f [] rest
              | None => Re.split_scan f (cur ++ [c]) t
              end).
      destruct (Re.match_sep (c :: t)) as [rest|] eqn:Hm.
      * destruct (match_sep_blank _ _ Hm) as (sep & Hs & Hsep & Hlen).
        simpl. rewrite IH, Hs. simpl. unfold Py.split.
        rewrite split_from_sep; [reflexivity | exact Hsep |].
        intro H0. subst sep. rewrite Hs in Hlen. simpl in Hlen. lia.
      * rewrite IH. now rewrite <- app_assoc.
Qed.

(** X1.  The paragraphs of a document hold its words: stripping the text and
    splitting it at blank lines neither loses a word nor cuts or merges
    one, so the words of the paragraphs, in order, are the words of the
    text. *)
Theorem paragraphs_keep_words (text : str) :
  concat (map Py.split (Re.split (strip text))) = Py.split text.
Proof.
  unfold Re.split. rewrite split_scan_words. simpl. apply split_strip.
Qed.

(** *** Words of a split, and joining them again *)

Lemma split_from_is_word (s w : str) :
  forallb nonspace w = true -> Forall is_word (split_from w s).
Proof.
  revert w. induction s as [|c t IH]; intros w Hw; simpl.
  - destruct w as [|a w]; [constructor|].
    constructor; [|constructor]. split; [discriminate | exact Hw].
  - destruct (isspace c) eqn:Hc.
    + destruct w as [|a w]; [now apply IH|].
      constructor; [split; [discriminate | exact Hw] | now apply IH].
    + apply IH. rewrite forallb_app, Hw. simpl. unfold nonspace. now rewrite Hc.
Qed.

Lemma split_is_word (s : str) : Forall is_word (Py.split s).
Proof. now apply split_from_is_word. Qed.

Lemma split_from_word (w acc rest : str) :
  forallb nonspace w = true ->
  split_from acc (w ++ rest) = split_from (acc ++ w) rest.
Proof.
  revert acc. induction w as [|c w IH]; intros acc Hw; simpl.
  - now rewrite app_nil_r.
  - simpl in Hw. apply andb_prop in Hw. destruct Hw as [Hc Hw].
    unfold nonspace in Hc. apply negb_true_iff in Hc. rewrite Hc.
    rewrite IH by exact Hw. now rewrite <- app_assoc.
Qed.

Lemma split_join (ws : list str) :
  Forall is_word ws -> Py.split (join [SP] ws) = ws.
Proof.
  induction 1 as [|w ws [Hne Hw] Hws IH]; [reflexivity|].
  destruct ws as [|w2 ws].
  - simpl. unfold Py.split. rewrite <- (app_nil_r w) at 1.
    rewrite split_from_word by exact Hw. simpl. now destruct w.
  - change (join [SP] (w :: w2 :: ws)) with (w ++ [SP] ++ join [SP] (w2 :: ws)).
    unfold Py.split. rewrite split_from_word by exact Hw. simpl.
    destruct w as [|a w]; [now contradiction Hne|].
    f_equal. exact IH.
Qed.

Lemma Forall_skipn_keep {A} (P : A -> Prop) (n : nat) (l : list A) :
  Forall P l -> Forall P (skipn n l).
Proof.
  intro Hl. rewrite <- (firstn_skipn n l) in Hl.
  now apply Forall_app in Hl.
Qed.

Section WordsOfChunks.

Context {E : Env}.
Variable self : MarkdownVectorDB.

Lemma overlap_words_Forall (P : str -> Prop) (c : list str) :
  Forall P c -> Forall P (overlap_words self c).
Proof.
  intro Hc. unfold overlap_words, slice_from.
  destruct (0 <? overlap self); [now apply Forall_skipn_keep | constructor].
Qed.

(** Every word list of the loop is made of words. *)
Lemma words_sentence_is_word (w : Words.t) (sent : str) :
  Forall (Forall is_word) (Words.closed w ++ [Words.current_chunk w]) ->
  Forall (Forall is_word)
         (Words.closed (words_sentence self w sent)
          ++ [Words.current_chunk (words_sentence self w sent)]).
Proof.
  intro Hw. apply Forall_app in Hw. destruct Hw as [Hcl Hcur].
  apply Forall_inv in Hcur.
  unfold words_sentence.
  destruct (chunk_size self <? Words.current_length w + len (Py.split sent)); simpl;
    repeat (apply Forall_app; split); try assumption;
    repeat constructor; try assumption;
    try (apply Forall_app; split); try assumption;
    try apply split_is_word; now apply overlap_words_Forall.
Qed.

Lemma chunk_word_lists_is_word (text : str) :
  Forall (Forall is_word) (chunk_word_lists self text).
Proof.
  assert (Hloop : Forall (Forall is_word)
                    (Words.closed (words_loop self text)
                     ++ [Words.current_chunk (words_loop self text)])).
  { unfold words_loop.
    assert (H0 : Forall (Forall is_word)
                   (Words.closed (Words.mk [] [] 0)
                    ++ [Words.current_chunk (Words.mk [] [] 0)]))
      by (repeat constructor).
    revert H0. generalize (Words.mk [] [] 0).
    induction (sentences_of text) as [|s sents IH]; intros w Hw; simpl; [exact Hw|].
    apply IH. now apply words_sentence_is_word. }
  unfold chunk_word_lists.
  destruct (Words.current_chunk (words_loop self text)); [|exact Hloop].
  apply Forall_app in Hloop. tauto.
Qed.

End WordsOfChunks.

(** C6.  A sentence is never split: the words of every sentence of the
    document are a run of consecutive words of one chunk that [_chunk_text]
    returns, whatever their number, so that a sentence of more than
    [chunk_size] words sits whole in a chunk of more than [chunk_size]
    words; and whatever the locals of the loop, the body of the loop leaves
    an accumulator that ends with all the words of the sentence, the size
    having been looked at before the addition only. *)
Theorem sentence_never_split {E : Env} (self : MarkdownVectorDB) (text sent : str) :
  In sent (sentences_of text) ->
  Py.split sent <> [] ->
  (exists chunk, In chunk (_chunk_text self text)
     /\ infix (Py.split sent) (Py.split chunk)
     /\ (chunk_size self < len (Py.split sent) ->
         chunk_size self < len (Py.split chunk)))
  /\ (forall st, exists before,
        Loop.current_chunk (chunk_sentence self st sent) = before ++ Py.split sent
        /\ (chunk_size self < len (Py.split sent) ->
            chunk_size self < len (Loop.current_chunk (chunk_sentence self st sent)))).
Proof.
  intros Hin Hne. split.
  - destruct (chunk_word_lists_held self text (Py.split sent) Hne) as (c & Hc & Hinf).
    { apply words_fold_held. right. now exists sent. }
    pose proof (chunk_word_lists_is_word self text) as Hall.
    rewrite Forall_forall in Hall.
    pose proof (split_join c (Hall c Hc)) as Hsplit.
    exists (join [SP] c). rewrite Hsplit. split; [|split].
    + rewrite chunk_text_word_lists. now apply in_map.
    + exact Hinf.
    + intro Hlong. apply infix_len in Hinf. lia.
  - intro st.
    assert (Hstep : exists before,
               Loop.current_chunk (chunk_sentence self st sent)
               = before ++ Py.split sent).
    { unfold chunk_sentence.
      destruct (chunk_size self <? Loop.current_length st + len (Py.split sent));
        simpl; eexists; reflexivity. }
    destruct Hstep as (before & Hstep). exists before. split; [exact Hstep|].
    intro Hlong. rewrite Hstep, len_app.
    pose proof (len_nonneg before). lia.
Qed.

Lemma sentence_never_split_witness :
  In (lit "b c d") (sentences_of (E := Ref.demo) Ref.doc_a_bcd)
  /\ Py.split (lit "b c d") <> []
  /\ exists chunk,
       In chunk (_chunk_text Ref.self_small Ref.doc_a_bcd)
       /\ infix (Py.split (lit "b c d")) (Py.split chunk)
       /\ chunk_size Ref.self_small < len (Py.split chunk).
Proof.
  assert (Hin : In (lit "b c d") (sentences_of (E := Ref.demo) Ref.doc_a_bcd))
    by (right; left; reflexivity).
  assert (Hne : Py.split (lit "b c d") <> []) by (vm_compute; discriminate).
  split; [exact Hin|]. split; [exact Hne|].
  destruct (sentence_never_split Ref.self_small Ref.doc_a_bcd (lit "b c d") Hin Hne)
    as [(chunk & Hc & Hinf & Hlong) _].
  exists chunk. repeat split; try assumption. apply Hlong. reflexivity.
Defined.

(** X2.  A chunk determines its word list: the words joined into a chunk
    are words of the document (non-empty, without white space), so
    splitting a chunk at white space gives back the word list it was joined
    from. *)
Theorem chunks_split_to_word_lists {E : Env} (self : MarkdownVectorDB) (text : str) :
  map Py.split (_chunk_text self text) = chunk_word_lists self text
  /\ Forall (Forall is_word) (chunk_word_lists self text).
Proof.
  split; [|apply chunk_word_lists_is_word].
  rewrite chunk_text_word_lists, map_map.
  rewrite <- (map_id (chunk_word_lists self text)) at 2.
  apply map_ext_in. intros c Hc. apply split_join.
  pose proof (chunk_word_lists_is_word self text) as Hall.
  rewrite Forall_forall in Hall. now apply Hall.
Qed.

(* ===================================================================== *)
(** ** Conservation of words, chunk sizes and empty chunks *)
(* ===================================================================== *)

Lemma last_cons_default {A} (c : A) (t : list A) (dflt : A) :
  last (c :: t) dflt = last t c.
Proof.
  revert c dflt. induction t as [|a t IH]; intros c dflt; [reflexivity|].
  change (last (c :: a :: t) dflt) with (last (a :: t) dflt).
  now rewrite !IH.
Qed.

Lemma sentence_words_app (l1 l2 : list str) :
  sentence_words (l1 ++ l2) = sentence_words l1 ++ sentence_words l2.
Proof. unfold sentence_words. now rewrite map_app, concat_app. Qed.

Lemma sentence_words_snoc (done : list str) (sent : str) :
  sentence_words (done ++ [sent]) = sentence_words done ++ Py.split sent.
Proof.
  rewrite sentence_words_app. unfold sentence_words. simpl. now rewrite app_nil_r.
Qed.

Section Conservation.

Context {E : Env}.
Variable self : MarkdownVectorDB.

Lemma unseed_snoc (l : list (list str)) (prev a : list str) :
  unseed self prev (l ++ [a])
  = unseed self prev l ++ skipn (length (overlap_words self (last l prev))) a.
Proof.
  revert prev. induction l as [|c t IH]; intro prev.
  - simpl. now rewrite app_nil_r.
  - rewrite last_cons_default. change ((c :: t) ++ [a]) with (c :: (t ++ [a])).
    cbn [unseed]. rewrite IH. now rewrite app_assoc.
Qed.

Lemma words_sentence_conserved (w : Words.t) (done : list str) (sent : str) :
  conserved self w done -> conserved self (words_sentence self w sent) (done ++ [sent]).
Proof.
  intros [Hun (rest & Hcur)]. unfold conserved, words_sentence.
  rewrite sentence_words_snoc.
  destruct (chunk_size self <? Words.current_length w + len (Py.split sent)); simpl.
  - split.
    + rewrite unseed_snoc, Hun, last_last. f_equal.
      rewrite skipn_app, Nat.sub_diag, skipn_all. reflexivity.
    + exists (Py.split sent). now rewrite last_last.
  - split.
    + rewrite unseed_snoc in Hun |- *. rewrite <- Hun. rewrite <- app_assoc. f_equal.
      rewrite skipn_app. f_equal.
      replace (length (overlap_words self (last (Words.closed w) []))
               - length (Words.current_chunk w))%nat with 0%nat; [reflexivity|].
      rewrite Hcur, length_app. lia.
    + exists (rest ++ Py.split sent). rewrite Hcur at 1. now rewrite app_assoc.
Qed.

Lemma words_fold_conserved (sents done : list str) (w : Words.t) :
  conserved self w done ->
  conserved self (fold_left (words_sentence self) sents w) (done ++ sents).
Proof.
  revert done w. induction sents as [|s sents IH]; intros done w Hw; simpl.
  - now rewrite app_nil_r.
  - replace (done ++ s :: sents) with ((done ++ [s]) ++ sents)
      by now rewrite <- app_assoc.
    apply IH. now apply words_sentence_conserved.
Qed.

Lemma overlap_words_len (c : list str) :
  len (overlap_words self c) <= Z.max 0 (overlap self).
Proof.
  unfold overlap_words, slice_from, len.
  destruct (0 <? overlap self) eqn:Hov; [|simpl; lia].
  apply Z.ltb_lt in Hov.
  assert (Hneg : (- overlap self <? 0) = true) by (apply Z.ltb_lt; lia).
  rewrite Hneg, length_skipn. unfold len. lia.
Qed.

Lemma words_sentence_bounded (m : Z) (w : Words.t) (sent : str) :
  len (Py.split sent) <= m ->
  bounded (Z.max (chunk_size self) (Z.max 0 (overlap self) + m)) w ->
  bounded (Z.max (chunk_size self) (Z.max 0 (overlap self) + m))
          (words_sentence self w sent).
Proof.
  intros Hm [Hc Hb]. split; [now apply words_sentence_counted|].
  unfold counted in Hc. unfold words_sentence.
  destruct (chunk_size self <? Words.current_length w + len (Py.split sent)) eqn:Hover;
    simpl.
  - apply Forall_app. split; [exact Hb|]. constructor; [|constructor].
    rewrite len_app. pose proof (overlap_words_len (Words.current_chunk w)). lia.
  - apply Forall_app in Hb. destruct Hb as [Hcl _].
    apply Forall_app. split; [exact Hcl|]. constructor; [|constructor].
    apply Z.ltb_ge in Hover. rewrite len_app. lia.
Qed.

Lemma words_fold_bounded (m : Z) (sents : list str) (w : Words.t) :
  (forall s, In s sents -> len (Py.split s) <= m) ->
  bounded (Z.max (chunk_size self) (Z.max 0 (overlap self) + m)) w ->
  bounded (Z.max (chunk_size self) (Z.max 0 (overlap self) + m))
          (fold_left (words_sentence self) sents w).
Proof.
  revert w. induction sents as [|s sents IH]; intros w Hm Hw; simpl; [exact Hw|].
  apply IH; [intros s' Hs'; apply Hm; now right|].
  apply words_sentence_bounded; [apply Hm; now left | exact Hw].
Qed.

Lemma words_sentence_filled (w : Words.t) (sent : str) :
  Py.split sent <> [] -> filled w -> filled (words_sentence self w sent).
Proof.
  intros Hs [Hcur Hcl]. unfold filled, words_sentence.
  destruct (chunk_size self <? Words.current_length w + len (Py.split sent)); simpl.
  - split.
    + intro H0. apply app_eq_nil in H0. tauto.
    + apply Forall_app. split; [exact Hcl | now repeat constructor].
  - split; [|exact Hcl].
    intro H0. apply app_eq_nil in H0. tauto.
Qed.

Lemma words_fold_filled (sents : list str) (w : Words.t) :
  (forall s, In s sents -> Py.split s <> []) ->
  filled w -> filled (fold_left (words_sentence self) sents w).
Proof.
  revert w. induction sents as [|s sents IH]; intros w Hs Hw; simpl; [exact Hw|].
  apply IH; [intros s' Hs'; apply Hs; now right|].
  apply words_sentence_filled; [apply Hs; now left | exact Hw].
Qed.

End Conservation.

Section ChunkProperties.

Context {E : Env}.

Lemma unseed_no_overlap (self : MarkdownVectorDB) (prev : list str) (cs : list (list str)) :
  overlap self <= 0 -> unseed self prev cs = concat cs.
Proof.
  intro Hov. revert prev. induction cs as [|c t IH]; intro prev; [reflexivity|].
  cbn [unseed concat]. rewrite IH. f_equal.
  unfold overlap_words. apply Z.ltb_ge in Hov. now rewrite Hov.
Qed.

(** X3.  No word is lost or repeated but for the overlap: the chunk word
    lists, each without the overlap words it took from the chunk before it,
    are together the words of the document's sentences, in order; with
    [overlap <= 0] the chunk word lists themselves are. *)
Theorem chunks_conserve_words (self : MarkdownVectorDB) (text : str) :
  unseed self [] (chunk_word_lists self text) = sentence_words (sentences_of text)
  /\ (overlap self <= 0 ->
      concat (chunk_word_lists self text) = sentence_words (sentences_of text)).
Proof.
  assert (Hun : unseed self [] (chunk_word_lists self text)
                = sentence_words (sentences_of text)).
  { assert (H0 : conserved self (Words.mk [] [] 0) []).
    { split.
      - cbn [Words.closed Words.current_chunk app unseed]. now rewrite skipn_nil.
      - exists []. simpl. now rewrite overlap_words_nil. }
    apply (words_fold_conserved self (sentences_of text)) in H0.
    destruct H0 as [H0 _]. simpl app in H0. fold (words_loop self text) in H0.
    unfold chunk_word_lists.
    destruct (Words.current_chunk (words_loop self text)) eqn:Hcur; [|exact H0].
    rewrite unseed_snoc, skipn_nil, app_nil_r in H0. exact H0. }
  split; [exact Hun|].
  intro Hov. now rewrite <- (unseed_no_overlap self [] _ Hov).
Qed.

(** X4.  The size of a chunk: when no sentence has more than [m] words, no
    chunk has more than [max(chunk_size, max(0, overlap) + m)] words. *)
Theorem chunk_length_bound (self : MarkdownVectorDB) (text : str) (m : Z) :
  (forall s, In s (sentences_of text) -> len (Py.split s) <= m) ->
  forall c, In c (chunk_word_lists self text) ->
    len c <= Z.max (chunk_size self) (Z.max 0 (overlap self) + m).
Proof.
  intros Hm c Hc.
  destruct (sentences_of text) as [|s0 sents] eqn:Hs.
  - unfold chunk_word_lists, words_loop in Hc. rewrite Hs in Hc. destruct Hc.
  - assert (Hm0 : 0 <= m).
    { pose proof (Hm s0 (or_introl eq_refl)). pose proof (len_nonneg (Py.split s0)). lia. }
    assert (H0 : bounded (Z.max (chunk_size self) (Z.max 0 (overlap self) + m))
                         (Words.mk [] [] 0)).
    { split; [reflexivity|]. simpl. constructor; [|constructor]. unfold len. simpl. lia. }
    apply (words_fold_bounded self m (s0 :: sents)) in H0; [|exact Hm].
    rewrite <- Hs in H0. fold (words_loop self text) in H0.
    destruct H0 as [_ H0]. rewrite Forall_forall in H0. apply H0.
    unfold chunk_word_lists in Hc.
    destruct (Words.current_chunk (words_loop self text)); [|exact Hc].
    apply in_or_app. now left.
Qed.

(** X5.  When every sentence has a word and the first sentence has at most
    [chunk_size] words, no chunk is the empty string. *)
Theorem no_empty_chunk (self : MarkdownVectorDB) (text : str) :
  (forall s, In s (sentences_of text) -> Py.split s <> []) ->
  (forall s rest, sentences_of text = s :: rest ->
     len (Py.split s) <= chunk_size self) ->
  ~ In [] (_chunk_text self text).
Proof.
  intros Hw Hfirst Hin.
  assert (Hne : Forall (fun c => c <> []) (chunk_word_lists self text)).
  { unfold chunk_word_lists, words_loop.
    destruct (sentences_of text) as [|s0 sents] eqn:Hs; [constructor|].
    assert (H0 : filled (words_sentence self (Words.mk [] [] 0) s0)).
    { unfold words_sentence. simpl.
      pose proof (Hfirst s0 sents eq_refl) as Hle. apply Z.ltb_ge in Hle.
      rewrite Hle. simpl. split; [apply Hw; now left | constructor]. }
    apply (words_fold_filled self sents) in H0; [|intros s Hs'; apply Hw; now right].
    simpl. destruct H0 as [Hcur Hcl].
    destruct (Words.current_chunk _); [now contradiction Hcur|].
    apply Forall_app. split; [exact Hcl|]. constructor; [discriminate | constructor]. }
  rewrite chunk_text_word_lists in Hin. apply in_map_iff in Hin.
  destruct Hin as (c & Hjoin & Hc).
  pose proof (chunk_word_lists_is_word self text) as Hall.
  rewrite Forall_forall in Hall, Hne.
  pose proof (split_join c (Hall c Hc)) as Hsplit.
  rewrite Hjoin in Hsplit. apply (Hne c Hc). now rewrite <- Hsplit.
Qed.

End ChunkProperties.

Lemma chunks_conserve_words_witness :
  overlap Ref.self_small <= 0
  /\ concat (chunk_word_lists Ref.self_small Ref.doc_a_bcd)
     = [lit "a"; lit "b"; lit "c"; lit "d"].
Proof.
  assert (Hov : overlap Ref.self_small <= 0) by (vm_compute; discriminate).
  split; [exact Hov|].
  exact (proj2 (chunks_conserve_words Ref.self_small Ref.doc_a_bcd) Hov).
Defined.

Lemma chunk_length_bound_witness :
  (forall s, In s (sentences_of (E := Ref.demo) Ref.doc_a_bcd) -> len (Py.split s) <= 3)
  /\ In [lit "a"; lit "b"; lit "c"; lit "d"] (chunk_word_lists Ref.demo_db Ref.doc_a_bcd)
  /\ len [lit "a"; lit "b"; lit "c"; lit "d"] <= 5.
Proof.
  assert (Hm : forall s, In s (sentences_of (E := Ref.demo) Ref.doc_a_bcd)
                         -> len (Py.split s) <= 3).
  { intros s Hs. vm_compute in Hs. destruct Hs as [<-|[<-|[]]]; vm_compute; discriminate. }
  assert (Hin : In [lit "a"; lit "b"; lit "c"; lit "d"]
                   (chunk_word_lists Ref.demo_db Ref.doc_a_bcd))
    by (right; left; reflexivity).
  split; [exact Hm|]. split; [exact Hin|].
  exact (chunk_length_bound Ref.demo_db Ref.doc_a_bcd 3 Hm _ Hin).
Defined.

Lemma no_empty_chunk_witness :
  (forall s, In s (sentences_of (E := Ref.demo) Ref.doc_ab_cd) -> Py.split s <> [])
  /\ (forall s rest, sentences_of (E := Ref.demo) Ref.doc_ab_cd = s :: rest ->
        len (Py.split s) <= chunk_size Ref.self_ab_cd)
  /\ ~ In [] (_chunk_text Ref.self_ab_cd Ref.doc_ab_cd).
Proof.
  assert (Hw : forall s, In s (sentences_of (E := Ref.demo) Ref.doc_ab_cd)
                         -> Py.split s <> []).
  { intros s Hs. vm_compute in Hs. destruct Hs as [<-|[<-|[]]]; vm_compute; discriminate. }
  assert (Hfirst : forall s rest, sentences_of (E := Ref.demo) Ref.doc_ab_cd = s :: rest ->
                                  len (Py.split s) <= chunk_size Ref.self_ab_cd).
  { intros s rest Hs. vm_compute in Hs. injection Hs as <- _. vm_compute. discriminate. }
  split; [exact Hw|]. split; [exact Hfirst|].
  exact (no_empty_chunk Ref.self_ab_cd Ref.doc_ab_cd Hw Hfirst).
Defined.

(* ===================================================================== *)
(** ** The constructor and the query on a built session *)
(* ===================================================================== *)

Section Construction.

Context {E : Env}.

Lemma np_array_uniform (r : list scalar) (rs : list (list scalar)) :
  np_array (r :: rs)
  = if forallb (fun r' => len r' =? len r) rs
    then inr {| shape := [len (r :: rs); len r]; rows := r :: rs |}
    else inl ValueError.
Proof. reflexivity. Qed.

(** X6.  The constructor returns an object exactly when [genai.Client]
    gives a client, the file can be read, the text gives at least one
    chunk, every chunk is embedded and all embeddings have one length; the
    object then holds that client and the other arguments, the chunks of
    the text, and an index of that dimension whose row [i] is the document
    embedding of chunk [i], as float32 numbers. *)
Theorem new_returns_iff (api_key path : str) (cs ov : Z) (self : MarkdownVectorDB) :
  new api_key path cs ov = inr self
  <-> exists c text vectors dim,
        Client api_key = inr c
        /\ read_text path = inr text
        /\ _chunk_text (fresh c path cs ov) text <> []
        /\ comprehension (embed_content c RETRIEVAL_DOCUMENT)
                         (_chunk_text (fresh c path cs ov) text)
           = inr vectors
        /\ (forall v, In v vectors -> len v = dim)
        /\ self = {| client := c; markdown_path := path;
                     chunk_size := cs; overlap := ov;
                     chunks := _chunk_text (fresh c path cs ov) text;
                     index := Some {| d := dim; xb := vectors |} |}.
Proof.
  unfold new, __init__, _load_markdown, _create_index, bind, assign, read, call, id.
  split.
  - destruct (Client api_key) as [e|c] eqn:Hclient; [discriminate|].
    cbn [markdown_path fresh].
    destruct (read_text path) as [e|text]; [discriminate|].
    cbn [client chunks set_chunks fresh].
    change {| client := c; markdown_path := path; chunk_size := cs;
              overlap := ov; chunks := []; index := None |}
      with (fresh c path cs ov).
    set (cks := _chunk_text (fresh c path cs ov) text).
    destruct (comprehension _ cks) as [e|vectors] eqn:Hemb; [discriminate|].
    destruct vectors as [|r rs]; [simpl; discriminate|].
    rewrite np_array_uniform.
    destruct (forallb _ rs) eqn:Hu; [|discriminate]. cbn [shape rows].
    unfold getitem at 1. simpl.
    unfold IndexFlatL2_add. cbn [shape d xb rows].
    unfold getitem. simpl. rewrite Z.eqb_refl.
    intro H0. injection H0 as <-.
    exists c, text, (r :: rs), (len r). split; [reflexivity|].
    split; [reflexivity|]. split.
    { intro Hnil. fold cks in Hnil. rewrite Hnil in Hemb. discriminate. }
    split; [exact Hemb|]. split; [|reflexivity].
    intros v [<-|Hv]; [reflexivity|].
    rewrite forallb_forall in Hu. apply Z.eqb_eq. now apply Hu.
  - intros (c & text & vectors & dim & Hclient & Hread & Hne & Hemb & Hdim & ->).
    rewrite Hclient. cbn [markdown_path fresh].
    rewrite Hread. cbn [client chunks set_chunks fresh].
    change {| client := c; markdown_path := path; chunk_size := cs;
              overlap := ov; chunks := []; index := None |}
      with (fresh c path cs ov).
    rewrite Hemb.
    destruct vectors as [|r rs].
    { apply comprehension_length in Hemb.
      destruct (_chunk_text (fresh c path cs ov) text);
        [now contradiction Hne | discriminate]. }
    rewrite np_array_uniform.
    assert (Hu : forallb (fun r' => len r' =? len r) rs = true).
    { apply forallb_forall. intros v Hv. apply Z.eqb_eq.
      rewrite (Hdim v (or_intror Hv)), (Hdim r (or_introl eq_refl)). reflexivity. }
    rewrite Hu. cbn [shape rows].
    unfold getitem at 1. simpl.
    unfold IndexFlatL2_add. cbn [shape d xb rows].
    unfold getitem. simpl. rewrite Z.eqb_refl.
    now rewrite (Hdim r (or_introl eq_refl)).
Qed.

Lemma comprehension_first_failure {A B} (f : A -> exn + B)
    (before : list A) (a : A) (after : list A) (e : exn) :
  (forall x, In x before -> exists y, f x = inr y) ->
  f a = inl e ->
  comprehension f (before ++ a :: after) = inl e.
Proof.
  intros Hok Ha. induction before as [|x before IH]; simpl.
  - now rewrite Ha.
  - destruct (Hok x (or_introl eq_refl)) as (y & Hy). rewrite Hy. simpl.
    rewrite IH; [reflexivity|]. intros x' Hx'. apply Hok. now right.
Qed.

(** X7.  An embedding failure aborts the build: once [genai.Client] gave
    a client and the file was read, when the embedding service raises on a
    chunk after answering for the chunks before it, the constructor raises
    that exception and the caller gets no object. *)
Theorem new_embedding_failure (api_key path : str) (cs ov : Z) (c text : str)
    (before : list str) (ch : str) (after : list str) (e : exn) :
  Client api_key = inr c ->
  read_text path = inr text ->
  _chunk_text (fresh c path cs ov) text = before ++ ch :: after ->
  (forall chunk, In chunk before ->
     exists v, embed_content c RETRIEVAL_DOCUMENT chunk = inr v) ->
  embed_content c RETRIEVAL_DOCUMENT ch = inl e ->
  new api_key path cs ov = inl e.
Proof.
  intros Hclient Hread Hchunks Hok Hfail.
  unfold new, __init__, _load_markdown, _create_index, bind, assign, read, call, id.
  rewrite Hclient. cbn [markdown_path fresh]. rewrite Hread.
  cbn [client chunks set_chunks fresh].
  change {| client := c; markdown_path := path; chunk_size := cs;
            overlap := ov; chunks := []; index := None |}
    with (fresh c path cs ov).
  rewrite Hchunks.
  now rewrite (comprehension_first_failure _ before ch after e Hok Hfail).
Qed.

(** X8.  On a built session, a query for at most as many chunks as there
    are reads [top_k] chunks at [top_k] different positions: the labels of
    the search are distinct and in range, so no chunk is repeated, no
    [IndexError] is raised, and the generation service is asked with the
    chunks in the order of the labels. *)
Theorem query_within_stored `{!FlatSearchContract E}
    (api_key path : str) (cs ov : Z) (self : MarkdownVectorDB)
    (question : str) (top_k : Z) (qvec D : list scalar) (I0 : list Z) :
  new api_key path cs ov = inr self ->
  top_k <= len (chunks self) ->
  embed_content (client self) RETRIEVAL_QUERY question = inr qvec ->
  index_search self qvec top_k = inr (D, I0) ->
  len I0 = top_k
  /\ NoDup I0
  /\ (forall i, In i I0 -> 0 <= i < len (chunks self))
  /\ context_of (chunks self) I0 = inr (join [NL] (map (chunk_at (chunks self)) I0))
  /\ fst (query question top_k self)
     = generate_content (client self)
         (prompt_of (join [NL] (map (chunk_at (chunks self)) I0)) question).
Proof.
  intros Hnew Hk Hq Hsearch.
  destruct (new_session _ _ _ _ _ Hnew) as (idx & Hidx & Hrows & Hne).
  assert (HI : 0 < top_k /\ I0 = snd (flat_search (xb idx) qvec top_k)).
  { revert Hsearch. unfold index_search, IndexFlatL2_search. rewrite Hidx.
    destruct (negb _); [discriminate|].
    destruct (0 <? top_k) eqn:Hpos; [|discriminate]. simpl.
    intro H0. injection H0 as H0. rewrite H0. split; [now apply Z.ltb_lt | reflexivity]. }
  destruct HI as [Hpos HI].
  pose proof (search_labels (xb idx) qvec top_k Hpos) as Hlen.
  pose proof (search_found (xb idx) qvec top_k Hpos) as [Hnd Hrange].
  rewrite <- HI in Hlen, Hnd, Hrange. rewrite Hrows in Hnd, Hrange.
  rewrite Z.min_l in Hnd, Hrange by exact Hk.
  assert (Hall : leading top_k I0 = I0).
  { unfold leading. apply firstn_all2. unfold len in Hlen. lia. }
  rewrite Hall in Hnd, Hrange.
  assert (Hctx : context_of (chunks self) I0
                 = inr (join [NL] (map (chunk_at (chunks self)) I0))).
  { unfold context_of.
    rewrite (comprehension_map _ (chunk_at (chunks self))); [reflexivity|].
    intros i Hi. apply getitem_in_range. now apply Hrange. }
  split; [exact Hlen|]. split; [exact Hnd|]. split; [exact Hrange|].
  split; [exact Hctx|].
  unfold query, bind, read, call, ret, id. rewrite Hq, Hsearch. cbn [snd].
  rewrite Hctx. now destruct (generate_content _ _).
Qed.

End Construction.

Lemma new_returns_iff_witness :
  @new Ref.demo (lit "key") (lit "a_bcd.md") 3 2 = inr Ref.demo_db
  /\ exists c text vectors dim,
       Client (Env := Ref.demo) (lit "key") = inr c
       /\ read_text (Env := Ref.demo) (lit "a_bcd.md") = inr text
       /\ comprehension (embed_content (Env := Ref.demo) c RETRIEVAL_DOCUMENT)
                        (_chunk_text (fresh (E := Ref.demo) c (lit "a_bcd.md") 3 2) text)
          = inr vectors
       /\ (forall v, In v vectors -> len v = dim)
       /\ index Ref.demo_db = Some (@Build_IndexFlatL2 Ref.demo dim vectors).
Proof.
  assert (Hnew : @new Ref.demo (lit "key") (lit "a_bcd.md") 3 2 = inr Ref.demo_db)
    by reflexivity.
  split; [exact Hnew|].
  destruct (proj1 (@new_returns_iff Ref.demo (lit "key") (lit "a_bcd.md") 3 2
                     Ref.demo_db) Hnew)
    as (c & text & vectors & dim & Hclient & Hread & _ & Hemb & Hdim & Hself).
  exists c, text, vectors, dim. split; [exact Hclient|]. split; [exact Hread|].
  split; [exact Hemb|]. split; [exact Hdim|].
  injection Hself as _ _ Hd Hxb. now rewrite <- Hd, <- Hxb.
Defined.

Lemma new_embedding_failure_witness :
  Client (Env := Flaky.demo) (lit "key") = inr (lit "key")
  /\ read_text (Env := Flaky.demo) (lit "a_bcd.md") = inr Ref.doc_a_bcd
  /\ _chunk_text (fresh (E := Flaky.demo) (lit "key") (lit "a_bcd.md") 3 2) Ref.doc_a_bcd
     = [lit "a"] ++ lit "a b c d" :: []
  /\ embed_content (Env := Flaky.demo) (lit "key") RETRIEVAL_DOCUMENT (lit "a b c d")
     = inl (Exn "ServerError")
  /\ @new Flaky.demo (lit "key") (lit "a_bcd.md") 3 2 = inl (Exn "ServerError").
Proof.
  do 4 (split; [reflexivity|]).
  apply (@new_embedding_failure Flaky.demo (lit "key") (lit "a_bcd.md") 3 2
           (lit "key") Ref.doc_a_bcd [lit "a"] (lit "a b c d") [] (Exn "ServerError")
           eq_refl eq_refl eq_refl).
  - intros chunk [<-|[]]. eexists. reflexivity.
  - reflexivity.
Defined.

Lemma query_within_stored_witness :
  @new Ref.demo (lit "key") (lit "a_bcd.md") 3 2 = inr Ref.demo_db
  /\ 2 <= len (chunks Ref.demo_db)
  /\ embed_content (Env := Ref.demo) (client Ref.demo_db) RETRIEVAL_QUERY (lit "b")
     = inr [1; 1]
  /\ index_search Ref.demo_db [1; 1] 2 = inr ([0; 45], [0; 1])
  /\ context_of (chunks Ref.demo_db) [0; 1]
     = inr (lit "a" ++ [NL] ++ lit "a b c d").
Proof.
  assert (Hk : 2 <= len (chunks Ref.demo_db)) by (vm_compute; discriminate).
  do 4 (split; [reflexivity || exact Hk|]).
  exact (proj1 (proj2 (proj2 (proj2
           (@query_within_stored Ref.demo (RefFacts.flat_search_contract _)
              (lit "key") (lit "a_bcd.md") 3 2 Ref.demo_db (lit "b") 2
              [1; 1] [0; 45] [0; 1] eq_refl Hk eq_refl eq_refl))))).
Defined.

(* ===================================================================== *)
(** ** The handlers of ui.py *)
(* ===================================================================== *)

Section HandlerProperties.

Context {E : Env} {host : Host}.

(** A query does not assign to [self]. *)
Lemma query_keeps_self (self : MarkdownVectorDB) (question : str) (top_k : Z) :
  snd (query question top_k self) = self.
Proof.
  unfold query, bind, read, call, ret, id.
  destruct (embed_content _ _ _) as [e|qvec]; [reflexivity|].
  destruct (index_search _ _ _) as [e|DI]; [reflexivity|].
  destruct (context_of _ _) as [e|context]; [reflexivity|].
  destruct (generate_content _ _) as [e|resp]; reflexivity.
Qed.

Lemma strip_falsy (s : str) : UI.falsy s = true -> s = [].
Proof. destruct s; [reflexivity | discriminate]. Qed.

Ltac reply_is_text :=
  match goal with
  | |- ?reply <> [] =>
      let Hx := fresh "Hx" in
      intro Hx; apply (f_equal (@length char)) in Hx;
      unfold UI.SORRY in Hx; simpl in Hx; discriminate Hx
  end.

(** X9.  The chat handler never loses or rewrites the history: when it
    returns, the history (empty for [None]) has two more entries, the
    question without the white space around it as the user's and a
    non-empty text as the assistant's; it raises only what the query raised
    and is neither an [AttributeError] nor an [Exception]; and it leaves the
    global session as it was. *)
Theorem ask_question_handler_outcome {data : Type}
    (genai_db : option MarkdownVectorDB) (history : option (list UI.turn))
    (question : str) (extraction_data : option data) :
  snd (UI.ask_question_handler genai_db history question extraction_data) = genai_db
  /\ match fst (UI.ask_question_handler genai_db history question extraction_data) with
     | inr history' =>
         exists reply,
           reply <> []
           /\ history' = match history with None => [] | Some h => h end
                         ++ [UI.user (strip question); UI.assistant reply]
     | inl e =>
         isinstance e "AttributeError" = false
         /\ isinstance e "Exception" = false
         /\ exists db, genai_db = Some db
                       /\ fst (query (strip question) 3 db) = inl e
     end.
Proof.
  unfold UI.ask_question_handler.
  destruct (UI.falsy question || UI.falsy (strip question)) eqn:Hblank.
  - split; [reflexivity|]. simpl. exists UI.PLEASE_TYPE. split; [reply_is_text|].
    assert (Hs : strip question = []).
    { apply orb_prop in Hblank. destruct Hblank as [Hq|Hq].
      - apply strip_falsy in Hq. now subst question.
      - now apply strip_falsy in Hq. }
    now rewrite Hs.
  - destruct extraction_data as [data0|].
    + destruct genai_db as [db|].
      * pose proof (query_keeps_self db (strip question) 3) as Hkeep.
        destruct (query (strip question) 3 db) as [[e|answer] db'] eqn:Hq;
          simpl in Hkeep; subst db'.
        -- destruct (isinstance e "AttributeError") eqn:Hattr.
           ++ split; [reflexivity|]. simpl. exists UI.ISSUE.
              split; [reply_is_text | reflexivity].
           ++ destruct (isinstance e "Exception") eqn:Hexc.
              ** split; [reflexivity|]. simpl. exists (UI.SORRY (str_of_exn e)).
                 split; [reply_is_text | reflexivity].
              ** split; [reflexivity|]. simpl. repeat split; try assumption.
                 exists db. split; [reflexivity|]. now rewrite Hq.
        -- split; [reflexivity|]. simpl.
           exists (if UI.falsy answer then UI.NO_ANSWER else answer).
           split; [|reflexivity].
           destruct answer; [reply_is_text | discriminate].
      * split; [reflexivity|]. simpl. exists UI.NOT_AVAILABLE.
        split; [reply_is_text | reflexivity].
    + split; [reflexivity|]. simpl. exists UI.PLEASE_UPLOAD.
      split; [reply_is_text | reflexivity].
Qed.

Ltac status_not_ready :=
  let Hx := fresh "Hx" in
  intro Hx; unfold UI.QA_READY, UI.QA_ERROR, UI.QA_NO_FILE, UI.QA_INSUFFICIENT,
              UI.QA_NO_KEY, UI.QA_TOO_SHORT, UI.WARNING, UI.CROSS, UI.CHECK in Hx;
  simpl in Hx; discriminate Hx.

Lemma str_eqb_false (a b : str) : UI.str_eqb a b = false -> a <> b.
Proof. unfold UI.str_eqb. destruct (list_eq_dec N.eq_dec a b); [discriminate | auto]. Qed.

(** X10.  The status is "Q&A Ready" exactly when the block leaves a
    session, and it leaves one only for an existing file of at least 50
    bytes whose text has at least 100 characters after stripping, with a
    non-empty API key other than [DUMMY_KEY]: the session is the one the
    constructor built from that file with [chunk_size = 800] and
    [overlap = 100], it has a chunk, and the test query on it returned. *)
Theorem process_brochure_qa_outcome (md_file : option str) (status : str)
    (genai_db : option MarkdownVectorDB) :
  UI.process_brochure_qa md_file = (inr status, genai_db) ->
  match genai_db with
  | None => status <> UI.QA_READY
  | Some db =>
      status = UI.QA_READY
      /\ exists path size contents api_key answer,
           md_file = Some path /\ path <> [] /\ path_exists path = true
           /\ getsize path = inr size /\ 50 <= size
           /\ api_key <> [] /\ api_key <> lit "DUMMY_KEY"
           /\ read_text path = inr contents /\ 100 <= len (strip contents)
           /\ new api_key path 800 100 = inr db
           /\ chunks db <> []
           /\ fst (query UI.TEST_QUESTION 3 db) = inr answer
  end.
Proof.
  unfold UI.process_brochure_qa, UI.qa_except.
  destruct md_file as [path|];
    [|intro H0; injection H0 as <- <-; status_not_ready].
  destruct (negb (UI.falsy path) && path_exists path) eqn:Hfile;
    [|intro H0; injection H0 as <- <-; status_not_ready].
  apply andb_prop in Hfile. destruct Hfile as [Hpath Hexists].
  destruct (getsize path) as [e|size] eqn:Hsize.
  { destruct (isinstance e "Exception"); [|discriminate].
    intro H0; injection H0 as <- <-; status_not_ready. }
  destruct (size <? 50) eqn:Hbig;
    [intro H0; injection H0 as <- <-; status_not_ready|].
  set (api_key := match getenv (lit "GEMINI_API_KEY") with
                  | Some v => v
                  | None => default_api_key
                  end).
  destruct (UI.falsy api_key || UI.str_eqb api_key (lit "DUMMY_KEY")) eqn:Hkey;
    [intro H0; injection H0 as <- <-; status_not_ready|].
  apply orb_false_elim in Hkey. destruct Hkey as [Hkey Hdummy].
  destruct (read_text path) as [e|contents] eqn:Hread.
  { destruct (isinstance e "Exception"); [|discriminate].
    intro H0; injection H0 as <- <-; status_not_ready. }
  destruct (len (strip contents) <? 100) eqn:Hlong;
    [intro H0; injection H0 as <- <-; status_not_ready|].
  destruct (new api_key path 800 100) as [e|db] eqn:Hnew.
  { destruct (isinstance e "Exception"); [|discriminate].
    intro H0; injection H0 as <- <-; status_not_ready. }
  pose proof (query_keeps_self db UI.TEST_QUESTION 3) as Hkeep.
  destruct (query UI.TEST_QUESTION 3 db) as [[e|answer] db'] eqn:Hq;
    simpl in Hkeep; subst db'.
  { destruct (isinstance e "Exception"); [|discriminate].
    intro H0; injection H0 as <- <-; status_not_ready. }
  intro H0. injection H0 as <- <-. split; [reflexivity|].
  exists path, size, contents, api_key, answer.
  destruct (new_session _ _ _ _ _ Hnew) as (_ & _ & _ & Hchunks).
  repeat split; try assumption.
  - intro Hp. subst path. discriminate.
  - apply Z.ltb_ge in Hbig. exact Hbig.
  - intro Hk. rewrite Hk in Hkey. discriminate.
  - now apply str_eqb_false.
  - apply Z.ltb_ge in Hlong. exact Hlong.
  - now rewrite Hq.
Qed.

End HandlerProperties.

Example ask_blank_question :
  fst (@UI.ask_question_handler UI.env (UI.demo_host UI.files) unit
         None (Some [UI.user (lit "hi"); UI.assistant (lit "hello")]) [SP; NL] (Some tt))
  = inr [UI.user (lit "hi"); UI.assistant (lit "hello");
         UI.user []; UI.assistant UI.PLEASE_TYPE].
Proof. reflexivity. Qed.

Example ask_without_session :
  fst (@UI.ask_question_handler UI.env (UI.demo_host UI.files) unit
         None None (lit " where? ") (Some tt))
  = inr [UI.user (lit "where?"); UI.assistant UI.NOT_AVAILABLE].
Proof. reflexivity. Qed.

Example ask_when_embedding_fails :
  fst (@UI.ask_question_handler Flaky.demo (UI.demo_host UI.files) unit
         (Some Flaky.demo_db) None (lit "how many rooms") (Some tt))
  = inr [UI.user (lit "how many rooms");
         UI.assistant (UI.SORRY (lit "ServerError"))].
Proof. reflexivity. Qed.

Example process_short_file :
  @UI.process_brochure_qa UI.env (UI.demo_host UI.files) (Some (lit "short.md"))
  = (inr UI.QA_INSUFFICIENT, None).
Proof. reflexivity. Qed.

Example process_when_test_query_fails :
  @UI.process_brochure_qa UI.flaky (UI.demo_host UI.files) (Some (lit "long.md"))
  = (inr (UI.QA_ERROR (lit "ServerError")), None).
Proof. reflexivity. Qed.

Lemma process_brochure_qa_outcome_witness :
  exists db,
    @UI.process_brochure_qa UI.env (UI.demo_host UI.files) (Some (lit "long.md"))
    = (inr UI.QA_READY, Some db)
    /\ chunks db <> []
    /\ exists contents,
         read_text (Env := UI.env) (lit "long.md") = inr contents
         /\ 100 <= len (strip contents).
Proof.
  eexists. split; [vm_compute; reflexivity|].
  destruct (@process_brochure_qa_outcome UI.env (UI.demo_host UI.files)
              (Some (lit "long.md")) _ _ eq_refl)
    as (_ & path & size & contents & api_key & answer & Hfile & _ & _ & _ & _ & _ & _
        & Hread & Hlong & _ & Hchunks & _).
  injection Hfile as <-.
  split; [exact Hchunks|]. exists contents. split; [exact Hread | exact Hlong].
Defined.

(* ===================================================================== *)
(** ** Small documents *)
(* ===================================================================== *)

Lemma sentence_words_len_app (l1 l2 : list str) :
  len (sentence_words l1) <= len (sentence_words (l1 ++ l2)).
Proof.
  rewrite sentence_words_app, len_app.
  pose proof (len_nonneg (sentence_words l2)). lia.
Qed.

Section SmallDocuments.

Context {E : Env}.
Variable self : MarkdownVectorDB.

Lemma words_fold_one_chunk (sents done : list str) :
  len (sentence_words (done ++ sents)) <= chunk_size self ->
  fold_left (words_sentence self) sents
            (Words.mk [] (sentence_words done) (len (sentence_words done)))
  = Words.mk [] (sentence_words (done ++ sents))
             (len (sentence_words (done ++ sents))).
Proof.
  revert done. induction sents as [|s sents IH]; intros done Hsmall.
  - now rewrite app_nil_r.
  - replace (done ++ s :: sents) with ((done ++ [s]) ++ sents) in *
      by now rewrite <- app_assoc.
    cbn [fold_left]. rewrite <- (IH (done ++ [s]) Hsmall). f_equal.
    unfold words_sentence. cbn [Words.current_length Words.current_chunk Words.closed].
    pose proof (sentence_words_len_app (done ++ [s]) sents) as Hle.
    rewrite sentence_words_snoc, len_app in Hle.
    assert (Hcond : (chunk_size self <? len (sentence_words done) + len (Py.split s))
                    = false) by (apply Z.ltb_ge; lia).
    rewrite Hcond. now rewrite sentence_words_snoc, len_app.
Qed.

Lemma chunk_fold_counted (sents : list str) (st : Loop.t) :
  Loop.current_length st = len (Loop.current_chunk st) ->
  Loop.current_length (fold_left (chunk_sentence self) sents st)
  = len (Loop.current_chunk (fold_left (chunk_sentence self) sents st)).
Proof.
  revert st. induction sents as [|s sents IH]; intros st Hst; simpl; [exact Hst|].
  apply IH. unfold chunk_sentence.
  destruct (chunk_size self <? Loop.current_length st + len (Py.split s)); simpl.
  - reflexivity.
  - rewrite len_app. lia.
Qed.

End SmallDocuments.

Section SmallDocumentClaims.

Context {E : Env}.

(** X11.  A document whose sentences have together at most [chunk_size]
    words gives one chunk, all its words joined by single spaces (and no
    chunk when it has no word). *)
Theorem small_document_one_chunk (self : MarkdownVectorDB) (text : str) :
  len (sentence_words (sentences_of text)) <= chunk_size self ->
  chunk_word_lists self text
  = match sentence_words (sentences_of text) with
    | [] => []
    | _ => [sentence_words (sentences_of text)]
    end
  /\ _chunk_text self text
     = match sentence_words (sentences_of text) with
       | [] => []
       | _ => [join [SP] (sentence_words (sentences_of text))]
       end.
Proof.
  intro Hsmall.
  assert (Hw : chunk_word_lists self text
               = match sentence_words (sentences_of text) with
                 | [] => []
                 | _ => [sentence_words (sentences_of text)]
                 end).
  { unfold chunk_word_lists, words_loop.
    change (Words.mk [] [] 0)
      with (Words.mk [] (sentence_words []) (len (sentence_words []))).
    rewrite (words_fold_one_chunk self (sentences_of text) [] Hsmall).
    simpl. now destruct (sentence_words (sentences_of text)). }
  split; [exact Hw|].
  rewrite chunk_text_word_lists, Hw.
  now destruct (sentence_words (sentences_of text)).
Qed.

(** X12.  On a session of one chunk, a query for [top_k > 1] chunks (the
    handlers ask for 3) sends the generation service that chunk [top_k]
    times: the search gives the label 0 and then [-1] for the missing
    neighbours, and each [-1] reads the same chunk again. *)
Theorem one_chunk_session_context `{!FlatSearchContract E}
    (api_key path : str) (cs ov : Z) (self : MarkdownVectorDB) (chunk : str)
    (question : str) (top_k : Z) (qvec D : list scalar) (I0 : list Z) :
  new api_key path cs ov = inr self ->
  chunks self = [chunk] ->
  1 < top_k ->
  embed_content (client self) RETRIEVAL_QUERY question = inr qvec ->
  index_search self qvec top_k = inr (D, I0) ->
  I0 = 0 :: repeat (-1) (Z.to_nat (top_k - 1))
  /\ context_of (chunks self) I0 = inr (join [NL] (repeat chunk (Z.to_nat top_k)))
  /\ fst (query question top_k self)
     = generate_content (client self)
         (prompt_of (join [NL] (repeat chunk (Z.to_nat top_k))) question).
Proof.
  intros Hnew Hone Hk Hq Hsearch.
  destruct (new_session _ _ _ _ _ Hnew) as (idx & Hidx & Hrows & _).
  assert (HI : I0 = snd (flat_search (xb idx) qvec top_k)).
  { revert Hsearch. unfold index_search, IndexFlatL2_search. rewrite Hidx.
    destruct (negb _); [discriminate|]. destruct (negb _); [discriminate|].
    intro H0. injection H0 as H0. now rewrite H0. }
  rewrite Hone in Hrows. change (len [chunk]) with 1 in Hrows.
  assert (Hk' : len (xb idx) < top_k) by lia.
  destruct (flat_search_beyond (xb idx) qvec top_k Hk') as (found & Hfound & _ & Hperm & _).
  rewrite <- HI, Hrows in Hfound. rewrite Hrows in Hperm.
  change (labels 1) with [0] in Hperm.
  apply Permutation_sym, Permutation_length_1_inv in Hperm. subst found.
  assert (HI0 : I0 = 0 :: repeat (-1) (Z.to_nat (top_k - 1))) by exact Hfound.
  assert (Hctx : context_of (chunks self) I0
                 = inr (join [NL] (repeat chunk (Z.to_nat top_k)))).
  { rewrite Hone, HI0. unfold context_of.
    rewrite (comprehension_map _ (fun _ => chunk)).
    - replace (Z.to_nat top_k) with (S (Z.to_nat (top_k - 1))) by lia.
      simpl. now rewrite map_repeat.
    - intros i [<-|Hi]; [reflexivity|].
      apply repeat_spec in Hi. subst i. reflexivity. }
  split; [exact HI0|]. split; [exact Hctx|].
  unfold query, bind, read, call, ret, id. rewrite Hq, Hsearch. cbn [snd].
  rewrite Hctx. now destruct (generate_content _ _).
Qed.

(** X13.  The running word count never drifts from the accumulator: after
    any number of sentences, [current_length] is [len(current_chunk)],
    whether it was last recomputed or incremented. *)
Theorem running_count_is_length (self : MarkdownVectorDB) (text : str) (n : nat) :
  let st := fold_left (chunk_sentence self) (firstn n (sentences_of text))
                      (Loop.mk [] [] 0) in
  Loop.current_length st = len (Loop.current_chunk st)
  /\ Loop.current_length (chunk_loop self text)
     = len (Loop.current_chunk (chunk_loop self text)).
Proof.
  split.
  - now apply chunk_fold_counted.
  - rewrite chunk_loop_sentences. now apply chunk_fold_counted.
Qed.

End SmallDocumentClaims.

Lemma small_document_one_chunk_witness :
  len (sentence_words (sentences_of (E := Ref.demo) Ref.doc_ab_cd))
  <= chunk_size (fresh (E := Ref.demo) [] [] 800 100)
  /\ _chunk_text (fresh (E := Ref.demo) [] [] 800 100) Ref.doc_ab_cd = [lit "a b c d"].
Proof.
  assert (Hsmall : len (sentence_words (sentences_of (E := Ref.demo) Ref.doc_ab_cd))
                   <= chunk_size (fresh (E := Ref.demo) [] [] 800 100))
    by (vm_compute; discriminate).
  split; [exact Hsmall|].
  exact (proj2 (small_document_one_chunk (fresh (E := Ref.demo) [] [] 800 100)
                  Ref.doc_ab_cd Hsmall)).
Defined.

Lemma one_chunk_session_context_witness :
  exists db,
    @new UI.env (lit "key") (lit "long.md") 800 100 = inr db
    /\ chunks db = [UI.long_word]
    /\ index_search db [2; 1] 3 = inr ([13924; Ref.FLT_MAX; Ref.FLT_MAX], [0; -1; -1])
    /\ context_of (chunks db) [0; -1; -1]
       = inr (UI.long_word ++ [NL] ++ UI.long_word ++ [NL] ++ UI.long_word).
Proof.
  eexists. split; [vm_compute; reflexivity|]. split; [reflexivity|].
  split; [reflexivity|].
  exact (proj1 (proj2
           (@one_chunk_session_context UI.env (RefFacts.flat_search_contract _)
              (lit "key") (lit "long.md") 800 100 _ UI.long_word (lit "hi") 3
              [2; 1] [13924; Ref.FLT_MAX; Ref.FLT_MAX] [0; -1; -1]
              eq_refl eq_refl eq_refl eq_refl eq_refl))).
Defined.
